(** * Qm717_Stocks: the return / regression / report pipeline of [masco_2025.py]

    A shallow embedding of the analysis module [masco_2025.py] and of the
    part of [app.py] that drives it, with the properties the specification
    states about them.

    Numbers.  A Python [float] is modelled as an extended real: [NaN], the
    two infinities, or a finite value carried as a real number of the
    Standard Library.  Rounding of binary64 arithmetic is not modelled; the
    special values are, because the code's behaviour on missing data
    ([dropna]), on empty input and in string formatting depends on them.
    The one place where rounding decides a property, the fit of a series
    of identical values, is evaluated in binary64 itself ([Binary64]).

    External libraries.  [yfinance], the least-squares solver behind
    [statsmodels] and the plotting / PDF back ends are not part of the
    repository.  The download and the solver are taken as parameters; what
    [pandas], [numpy] and [scipy] compute on the values passed to them by
    the code is written out from their documented definitions. *)

From Stdlib Require Import String Ascii DecimalString.
From Stdlib Require Import Reals Lra Lia ZArith List Bool.
From Stdlib Require Import Permutation Sorted.
From Stdlib Require Floats.
Import ListNotations.

Set Implicit Arguments.

Open Scope string_scope.
Open Scope list_scope.

(* ================================================================== *)
(** * Python values: floats, exceptions *)
(* ================================================================== *)

Module Py.

Open Scope R_scope.

(** A Python [float], up to rounding. *)
Inductive float : Type :=
| NaN
| NInf
| PInf
| Fin (x : R).

(** [math.isnan] / [pandas.isna] on a float cell. *)
Definition isnan (a : float) : bool :=
  match a with NaN => true | _ => false end.

(** [numpy.isfinite]. *)
Definition isfinite (a : float) : bool :=
  match a with Fin _ => true | _ => false end.

(** Boolean comparisons of reals, through the decidable order. *)
Definition Rltb (x y : R) : bool := if Rlt_dec x y then true else false.
Definition Rleb (x y : R) : bool := if Rle_dec x y then true else false.
Definition Reqb (x y : R) : bool := if Req_dec_T x y then true else false.

(** [a < b] on floats: every comparison with [NaN] is false. *)
Definition fltb (a b : float) : bool :=
  match a, b with
  | NaN, _ | _, NaN => false
  | _, NInf => false
  | NInf, _ => true
  | PInf, _ => false
  | Fin _, PInf => true
  | Fin x, Fin y => Rltb x y
  end.

(** [a / b] on floats (IEEE 754 special cases, signed zeros apart). *)
Definition fdiv (a b : float) : float :=
  match a, b with
  | NaN, _ | _, NaN => NaN
  | Fin x, Fin y =>
      if Reqb y 0 then
        if Reqb x 0 then NaN else if Rltb 0 x then PInf else NInf
      else Fin (x / y)
  | Fin _, _ => Fin 0
  | PInf, Fin y => if Rltb y 0 then NInf else PInf
  | NInf, Fin y => if Rltb y 0 then PInf else NInf
  | _, _ => NaN
  end.

(** [a - b] on floats. *)
Definition fsub (a b : float) : float :=
  match a, b with
  | NaN, _ | _, NaN => NaN
  | Fin x, Fin y => Fin (x - y)
  | Fin _, PInf => NInf
  | Fin _, NInf => PInf
  | PInf, PInf => NaN
  | NInf, NInf => NaN
  | PInf, _ => PInf
  | NInf, _ => NInf
  end.

(** [numpy.log]. *)
Definition flog (a : float) : float :=
  match a with
  | NaN => NaN
  | NInf => NaN
  | PInf => PInf
  | Fin x => if Rltb 0 x then Fin (ln x) else if Reqb x 0 then NInf else NaN
  end.

(** [numpy.sqrt]. *)
Definition fsqrt (a : float) : float :=
  match a with
  | NaN => NaN
  | NInf => NaN
  | PInf => PInf
  | Fin x => if Rltb x 0 then NaN else Fin (sqrt x)
  end.

(** [a ** 2]. *)
Definition fsquare (a : float) : float :=
  match a with
  | NaN => NaN
  | Fin x => Fin (x * x)
  | _ => PInf
  end.

(** The outcome of a Python call: a value, or a raised exception. *)
Inductive exn : Type :=
| KeyError
| IndexError
| ValueError
| LinAlgError
| ConnectionError.

Inductive outcome (A : Type) : Type :=
| Ok (a : A)
| Raise (e : exn).

Arguments Ok {A} a.
Arguments Raise {A} e.

Definition bind {A B : Type} (c : outcome A) (k : A -> outcome B) : outcome B :=
  match c with
  | Ok a => k a
  | Raise e => Raise e
  end.

End Py.

Export Py.

Notation "x <- c ;; k" := (bind c (fun x => k))
  (at level 61, c at next level, right associativity).

(* ================================================================== *)
(** * String formatting: [f"{x:.4f}"] *)
(* ================================================================== *)

Module Format.

Open Scope R_scope.

(** Round to the nearest integer, ties to the even one: the rounding of
    Python's fixed-point formatting, applied to the exact value. *)
Definition round_half_even (x : R) : Z :=
  let f := Int_part x in
  let d := x - IZR f in
  if Rltb d (1 / 2) then f
  else if Rltb (1 / 2) d then (f + 1)%Z
  else if Z.even f then f else (f + 1)%Z.

(** Decimal digits of a natural number, no padding. *)
Definition str_of_Z (n : Z) : string :=
  NilZero.string_of_uint (N.to_uint (Z.to_N n)).

Definition digit (n : Z) : ascii := ascii_of_nat (48 + Z.to_nat n).

(** Exactly four decimal digits of [n mod 10000], zero padded. *)
Definition pad4 (n : Z) : string :=
  String (digit (n / 1000 mod 10))
    (String (digit (n / 100 mod 10))
       (String (digit (n / 10 mod 10))
          (String (digit (n mod 10)) EmptyString))).

(** The text of a non-negative number of ten-thousandths. *)
Definition fixed4 (n : Z) : string :=
  (str_of_Z (n / 10000) ++ "." ++ pad4 (n mod 10000))%string.

(** [f"{x:.4f}"]. *)
Definition fmt4 (a : float) : string :=
  match a with
  | NaN => "nan"
  | PInf => "inf"
  | NInf => "-inf"
  | Fin x =>
      ((if Rltb x 0 then "-" else "") ++
       fixed4 (round_half_even (Rabs x * 10000)))%string
  end.

(** [f"({i})"] for a row number. *)
Definition fmt_index (i : nat) : string :=
  ("(" ++ str_of_Z (Z.of_nat i) ++ ")")%string.

End Format.

(* ================================================================== *)
(** * Data: the four-column frame and [pandas] series *)
(* ================================================================== *)

Module Data.

(** One row of the frame whose columns [load_data] labels
    [[stock_ticker, "SP500", "VW", "TYX"]]. *)
Record Row (A : Type) : Type := mkRow {
  stock : A;
  SP500 : A;
  VW : A;
  TYX : A
}.

Definition row_map {A B : Type} (f : A -> B) (r : Row A) : Row B :=
  mkRow (f (stock r)) (f (SP500 r)) (f (VW r)) (f (TYX r)).

Definition row_map2 {A B C : Type} (f : A -> B -> C) (r : Row A) (s : Row B) : Row C :=
  mkRow (f (stock r) (stock s)) (f (SP500 r) (SP500 s))
        (f (VW r) (VW s)) (f (TYX r) (TYX s)).

Definition row_cells {A : Type} (r : Row A) : list A :=
  [stock r; SP500 r; VW r; TYX r].

(** A frame: the label of its first column (the ticker) and its rows, each
    with its index entry. *)
Record Frame (I A : Type) : Type := mkFrame {
  ticker_of : string;
  body : list (I * Row A)
}.

(** A calendar day, the index of the daily price table. *)
Record date : Type := mkDate {
  year : Z;
  month : Z;
  day : Z
}.

(** The calendar month of a day, counted from year 0; it stands for the
    month-end timestamp that labels a monthly row. *)
Definition month_index (d : date) : Z := (12 * year d + (month d - 1))%Z.

(** The column a label denotes.  The ticker is assumed different from the
    three factor labels, so that labels are unique. *)
Definition accessor {A : Type} (ticker name : string) : option (Row A -> A) :=
  if String.eqb name ticker then Some (@stock A)
  else if String.eqb name "SP500" then Some (@SP500 A)
  else if String.eqb name "VW" then Some (@VW A)
  else if String.eqb name "TYX" then Some (@TYX A)
  else None.

(** [frame[name]]: a column as a series of values. *)
Definition getitem {I A : Type} (f : Frame I A) (name : string) : outcome (list A) :=
  match accessor (ticker_of f) name with
  | Some g => Ok (map (fun r => g (snd r)) (body f))
  | None => Raise KeyError
  end.

(** A [pandas] series with a string index, as [statsmodels] returns for
    [params], [bse] and [pvalues]. *)
Definition Series : Type := list (string * float).

(** [name in s.index]. *)
Definition series_mem (name : string) (s : Series) : bool :=
  existsb (fun kv => String.eqb name (fst kv)) s.

(** [s[name]] when the label is present. *)
Fixpoint series_lookup (name : string) (s : Series) : option float :=
  match s with
  | [] => None
  | (k, v) :: tl => if String.eqb name k then Some v else series_lookup name tl
  end.

(** [s.get(name, default)]. *)
Definition series_get (s : Series) (name : string) (default : float) : float :=
  match series_lookup name s with
  | Some v => v
  | None => default
  end.

End Data.

Export Data.

(* ================================================================== *)
(** * Regression engine: [run_regressions] *)
(* ================================================================== *)

Module Engine.

Open Scope R_scope.

(** The return series that reaches the engine has finite values: a frame
    of reals.  ([load_data] has removed the rows with a missing value.) *)

(** A design matrix: column names and rows. *)
Record Design : Type := mkDesign {
  names : list string;
  mat : list (list R)
}.

(** What the numerical core of [sm.OLS(y, X).fit()] estimates. *)
Record Estimates : Type := mkEstimates {
  e_params : list R;
  e_bse : list float;
  e_pvalues : list float;
  e_mse_resid : float
}.

(** A fitted model: the data it was fitted on and the estimates. *)
Record RegressionResults : Type := mkResults {
  endog : list R;
  exog : Design;
  est : Estimates
}.

(** The estimates, labelled with the column names of the design. *)
Definition label (d : Design) (vals : list float) : Series :=
  combine (names d) vals.

(** [reg.params], [reg.bse], [reg.pvalues]: series indexed by column name. *)
Definition params (r : RegressionResults) : Series :=
  label (exog r) (map Fin (e_params (est r))).
Definition bse (r : RegressionResults) : Series :=
  label (exog r) (e_bse (est r)).
Definition pvalues (r : RegressionResults) : Series :=
  label (exog r) (e_pvalues (est r)).
Definition mse_resid (r : RegressionResults) : float := e_mse_resid (est r).

(** [reg.nobs]: the number of rows of the response. *)
Definition nobs (r : RegressionResults) : nat := length (endog r).

(** The fitted value of one row, and the sum of a list. *)
Fixpoint dot (x b : list R) : R :=
  match x, b with
  | xi :: xs, bi :: bs => xi * bi + dot xs bs
  | _, _ => 0
  end.

Fixpoint Rsum (l : list R) : R :=
  match l with
  | [] => 0
  | x :: tl => x + Rsum tl
  end.

(** [reg.fittedvalues] for coefficients [b]. *)
Definition predict (X : list (list R)) (b : list R) : list R :=
  map (fun x => dot x b) X.

(** Sum of squared residuals of coefficients [b] on data [(X, y)]. *)
Definition ssr_of (X : list (list R)) (y : list R) (b : list R) : R :=
  Rsum (map (fun p => (fst p - snd p) * (fst p - snd p)) (combine y (predict X b))).

Definition mean (y : list R) : R := Rsum y / INR (length y).

(** Total sum of squares about the mean. *)
Definition centered_tss_of (y : list R) : R :=
  Rsum (map (fun v => (v - mean y) * (v - mean y)) y).

Definition ssr (r : RegressionResults) : R :=
  ssr_of (mat (exog r)) (endog r) (e_params (est r)).
Definition centered_tss (r : RegressionResults) : R := centered_tss_of (endog r).

(** [reg.rsquared] of a model with a constant: [1 - ssr / centered_tss].
    Every design [run_regressions] builds contains a constant column. *)
Definition rsquared (r : RegressionResults) : float :=
  fsub (Fin 1) (fdiv (Fin (ssr r)) (Fin (centered_tss r))).

(** A series as a one-column design. *)
Definition to_frame (name : string) (s : list R) : Design :=
  mkDesign [name] (map (fun v => [v]) s).

(** [returns[[n1, n2, ...]]]. *)
Fixpoint accessors (ticker : string) (ns : list string) : option (list (Row R -> R)) :=
  match ns with
  | [] => Some []
  | n :: tl =>
      match accessor ticker n, accessors ticker tl with
      | Some g, Some gs => Some (g :: gs)
      | _, _ => None
      end
  end.

Definition getitems {I : Type} (f : Frame I R) (ns : list string) : outcome Design :=
  match accessors (ticker_of f) ns with
  | Some gs => Ok (mkDesign ns (map (fun r => map (fun g => g (snd r)) gs) (body f)))
  | None => Raise KeyError
  end.

(** Column [j] of a design. *)
Definition column (j : nat) (d : Design) : list R :=
  map (fun x => nth j x 0) (mat d).

(** A column that already is a constant: all values equal and not zero. *)
Definition is_const (s : list R) : bool :=
  match s with
  | [] => false
  | v :: tl => forallb (Reqb v) tl && negb (Reqb v 0)
  end.

Definition has_constant (d : Design) : bool :=
  existsb (fun j => is_const (column j d)) (seq 0 (length (names d))).

(** [sm.add_constant(X)] with its default [has_constant='skip']: a column
    of ones named [const] is put first unless a constant is present. *)
Definition add_constant (d : Design) : Design :=
  if has_constant d then d
  else mkDesign ("const" :: names d) (map (cons 1) (mat d)).

Section Fit.

(** The least-squares solver of [statsmodels], with whatever it raises. *)
Variable solve : Design -> list R -> outcome Estimates.

(** [sm.OLS(y, X).fit()]. *)
Definition OLS_fit (y : list R) (X : Design) : outcome RegressionResults :=
  e <- solve X y ;;
  Ok (mkResults y X e).

Definition run_regressions {I : Type} (returns : Frame I R) (stock_ticker : string)
  : outcome (list RegressionResults) :=
  y <- getitem returns stock_ticker ;;
  (* Regression 1: MAS ~ SP500 *)
  c1 <- getitem returns "SP500" ;;
  let X1 := add_constant (to_frame "SP500" c1) in
  reg1 <- OLS_fit y X1 ;;
  (* Regression 2: MAS ~ VW *)
  c2 <- getitem returns "VW" ;;
  let X2 := add_constant (to_frame "VW" c2) in
  reg2 <- OLS_fit y X2 ;;
  (* Regression 3: MAS ~ TYX *)
  c3 <- getitem returns "TYX" ;;
  let X3 := add_constant (to_frame "TYX" c3) in
  reg3 <- OLS_fit y X3 ;;
  (* Regression 4: MAS ~ SP500 + VW *)
  f4 <- getitems returns ["SP500"; "VW"] ;;
  let X4 := add_constant f4 in
  reg4 <- OLS_fit y X4 ;;
  (* Regression 5: MAS ~ SP500 + VW + TYX *)
  f5 <- getitems returns ["SP500"; "VW"; "TYX"] ;;
  let X5 := add_constant f5 in
  reg5 <- OLS_fit y X5 ;;
  Ok [reg1; reg2; reg3; reg4; reg5].

End Fit.

(** A fitted value as an affine combination of three regressors. *)
Definition affine {T : Type} (h1 h2 h3 : T -> R) (a b c d : R) (t : T) : R :=
  a + b * h1 t + c * h2 t + d * h3 t.

(** What a fit guarantees of its coefficients, up to a slack [eps]: no
    other coefficient vector has a sum of squared residuals that is
    smaller by more than [eps].  With [eps = 0] the coefficients are an
    exact least-squares solution; the coefficients a solver computes in
    floating point miss the minimum by a small [eps]. *)
Definition least_squares_within (eps : R) (r : RegressionResults) : Prop :=
  forall b : list R,
    ssr_of (mat (exog r)) (endog r) (e_params (est r)) <=
    ssr_of (mat (exog r)) (endog r) b + eps.

End Engine.

Export Engine.

(* ================================================================== *)
(** * Table formatter: [create_regression_table_dataframe] *)
(* ================================================================== *)

Module Formatter.

Import Format.

(** The helper local to [create_regression_table_dataframe]. *)
Definition create_cell_value (reg : RegressionResults) (var_name : string) : string :=
  match series_lookup var_name (params reg) with
  | Some val =>
      let se := series_get (bse reg) var_name (Fin 0) in
      let pval := series_get (pvalues reg) var_name (Fin 1) in
      let sig :=
        if fltb pval (Fin 0.01) then "***"
        else if fltb pval (Fin 0.05) then "**"
        else if fltb pval (Fin 0.1) then "*"
        else "" in
      (fmt4 val ++ sig ++ " (" ++ fmt4 se ++ ")")%string
  | None => ""
  end.

(** One [row] dictionary of the loop, keys in insertion order. *)
Definition table_row (i : nat) (reg : RegressionResults) : list (string * string) :=
  let resid_se := fsqrt (mse_resid reg) in
  let r_squared := rsquared reg in
  [ ("Regression", fmt_index i);
    ("Int.", create_cell_value reg "const");
    ("S&P 500", create_cell_value reg "SP500");
    ("Val.-Wgtd", create_cell_value reg "VW");
    ("30 Yr Treas.", create_cell_value reg "TYX");
    ("S,R²", (fmt4 resid_se ++ ", " ++ fmt4 r_squared)%string) ].

(** [for i, reg in enumerate(regressions, i)]. *)
Fixpoint table_rows (i : nat) (regressions : list RegressionResults)
  : list (list (string * string)) :=
  match regressions with
  | [] => []
  | reg :: tl => table_row i reg :: table_rows (S i) tl
  end.

(** The data frame shown on screen: one record per regression. *)
Definition create_regression_table_dataframe (regressions : list RegressionResults)
  : list (list (string * string)) :=
  table_rows 1 regressions.

End Formatter.

(* ================================================================== *)
(** * Return series builder: [load_data] *)
(* ================================================================== *)

Module Builder.

Definition nan_row : Row float := mkRow NaN NaN NaN NaN.

(** A row with a missing value in some column. *)
Definition has_na (r : Row float) : bool := existsb isnan (row_cells r).

(** [frame.dropna()]: listwise deletion. *)
Definition dropna {I : Type} (f : Frame I float) : Frame I float :=
  mkFrame (ticker_of f) (filter (fun r => negb (has_na (snd r))) (body f)).

(** The last value of a column that is not missing, [NaN] when none is. *)
Definition last_valid (col : list float) : float :=
  fold_left (fun acc v => if isnan v then acc else v) col NaN.

(** The rows of a daily table that fall in calendar month [m]. *)
Definition in_month (rows : list (date * Row float)) (m : Z) : list (Row float) :=
  map snd (filter (fun r => Z.eqb (month_index (fst r)) m) rows).

(** The aggregate [last] of one monthly bin, column by column. *)
Definition bin_last (rows : list (date * Row float)) (m : Z) : Row float :=
  let b := in_month rows m in
  mkRow (last_valid (map (@stock float) b)) (last_valid (map (@SP500 float) b))
        (last_valid (map (@VW float) b)) (last_valid (map (@TYX float) b)).

Definition months_of (rows : list (date * Row float)) : list Z :=
  map (fun r => month_index (fst r)) rows.

Definition Zmin_list (z : Z) (l : list Z) : Z := fold_left Z.min l z.
Definition Zmax_list (z : Z) (l : list Z) : Z := fold_left Z.max l z.

(** The consecutive months from [lo] to [hi]. *)
Definition month_range (lo hi : Z) : list Z :=
  map (fun k => (lo + Z.of_nat k)%Z) (seq 0 (Z.to_nat (hi - lo + 1))).

(** [frame.resample("ME").last()]: one row per calendar month from the
    first to the last month of the index, months without a row included. *)
Definition resample_last (f : Frame date float) : Frame Z float :=
  mkFrame (ticker_of f)
    match months_of (body f) with
    | [] => []
    | m0 :: ms =>
        map (fun m => (m, bin_last (body f) m))
            (month_range (Zmin_list m0 ms) (Zmax_list m0 ms))
    end.

(** Rows moved down by one place from [prev] on. *)
Fixpoint shift_from {I : Type} (prev : Row float) (rows : list (I * Row float))
  : list (I * Row float) :=
  match rows with
  | [] => []
  | (i, r) :: tl => (i, prev) :: shift_from r tl
  end.

(** [frame.shift(1)]. *)
Definition shift1 {I : Type} (f : Frame I float) : Frame I float :=
  mkFrame (ticker_of f) (shift_from nan_row (body f)).

(** [f / g] for two frames over the same index. *)
Definition frame_div {I : Type} (f g : Frame I float) : Frame I float :=
  mkFrame (ticker_of f)
    (map (fun p => (fst (fst p), row_map2 fdiv (snd (fst p)) (snd (snd p))))
         (combine (body f) (body g))).

(** [np.log(frame)]. *)
Definition np_log {I : Type} (f : Frame I float) : Frame I float :=
  mkFrame (ticker_of f) (map (fun r => (fst r, row_map flog (snd r))) (body f)).

Section Download.

(** [yf.download(tickers, start=..., end=..., auto_adjust=False)["Adj Close"]]:
    the daily table of the four instruments, index ascending, or the
    exception of a failed retrieval. *)
Variable download : list string -> string -> string -> outcome (list (date * Row float)).

Definition load_data (stock_ticker start end_ : string) : outcome (Frame Z float) :=
  let tickers := [stock_ticker; "^GSPC"; "^W5000"; "^TYX"] in
  table <- download tickers start end_ ;;
  let raw := mkFrame stock_ticker table in
  let raw := dropna raw in
  (* Convert to monthly prices (end of month) *)
  let monthly_prices := resample_last raw in
  (* Calculate log returns *)
  let returns := dropna (np_log (frame_div monthly_prices (shift1 monthly_prices))) in
  Ok returns.

End Download.

End Builder.

(* ================================================================== *)
(** * Distribution analysis: [plot_normal_distribution], [plot_cdf] *)
(* ================================================================== *)

Module Distribution.

Open Scope R_scope.

(** [numpy]'s mean of an array: the sum over the count, [NaN] when empty. *)
Definition np_mean (data : list R) : float :=
  fdiv (Fin (Rsum data)) (Fin (INR (length data))).

(** [scipy.stats.norm.fit(data)] on finite data: the location is the mean
    and the scale is the root of the mean squared deviation. *)
Definition norm_fit (data : list R) : float * float :=
  let loc := np_mean data in
  let scale :=
    match loc with
    | Fin m => fsqrt (np_mean (map (fun x => (x - m) * (x - m)) data))
    | _ => NaN
    end in
  (loc, scale).

(** [series.std()] of [pandas]: one degree of freedom is removed. *)
Definition pandas_std (data : list R) : float :=
  let ddof := 1%nat in
  let n := length data in
  if Nat.leb n ddof then NaN
  else
    let m := Rsum data / INR n in
    fsqrt (Fin (Rsum (map (fun x => (x - m) * (x - m)) data) / (INR n - INR ddof))).

(** [series.mean()], [series.min()], [series.max()] of [pandas]. *)
Definition pandas_mean (data : list R) : float := np_mean data.

Definition pandas_min (data : list R) : float :=
  match data with
  | [] => NaN
  | x :: tl => Fin (fold_left Rmin tl x)
  end.

Definition pandas_max (data : list R) : float :=
  match data with
  | [] => NaN
  | x :: tl => Fin (fold_left Rmax tl x)
  end.

Fixpoint insert (x : R) (l : list R) : list R :=
  match l with
  | [] => [x]
  | y :: tl => if Rleb x y then x :: l else y :: insert x tl
  end.

(** [np.sort]: ascending order. *)
Definition np_sort (l : list R) : list R := fold_right insert [] l.

(** [np.linspace(start, stop, num)] with [endpoint=True]. *)
Definition linspace (start stop : R) (num : nat) : list R :=
  let div := (num - 1)%nat in
  let y := map INR (seq 0 num) in
  let delta := stop - start in
  let y :=
    if Nat.ltb 0 div then
      let step := delta / INR div in
      if Reqb step 0 then map (fun v => v / INR div * delta) y
      else map (fun v => v * step) y
    else map (fun v => v * delta) y in
  let y := map (fun v => v + start) y in
  if Nat.ltb 1 num then removelast y ++ [stop] else y.

(** The part of [plot_normal_distribution] that computes: the fitted
    [(mu, sigma)] that the figure draws and names in its legend.  On the
    finite series [load_data] yields, [dropna] changes nothing. *)
Definition plot_normal_distribution {I : Type} (returns : Frame I R) (stock_ticker : string)
  : outcome (float * float) :=
  stock_returns <- getitem returns stock_ticker ;;
  (* Fit normal distribution *)
  Ok (norm_fit stock_returns).

(** The part of [plot_cdf] that computes: the two scatter series, each a
    sorted return paired with its cumulative probability. *)
Definition plot_cdf {I : Type} (returns : Frame I R) (stock_ticker : string)
  : outcome (list (R * R) * list (R * R)) :=
  stock_returns <- getitem returns stock_ticker ;;
  sp <- getitem returns "SP500" ;;
  (* Sort returns *)
  let stock_sorted := np_sort stock_returns in
  let sp_sorted := np_sort sp in
  (* Cumulative probabilities *)
  let p_stock := linspace 0 1 (length stock_sorted) in
  let p_sp := linspace 0 1 (length sp_sorted) in
  Ok (combine stock_sorted p_stock, combine sp_sorted p_sp).

End Distribution.

(* ================================================================== *)
(** * Report assembly: the computed parts of [generate_pdf_report] *)
(* ================================================================== *)

Module Report.

Import Format Distribution.

(** The helper local to [generate_pdf_report]. *)
Definition create_cell_value (reg : RegressionResults) (var_name : string) : string :=
  match series_lookup var_name (params reg) with
  | Some val =>
      let se := series_get (bse reg) var_name (Fin 0) in
      let pval := series_get (pvalues reg) var_name (Fin 1) in
      let sig :=
        if fltb pval (Fin 0.01) then "***"
        else if fltb pval (Fin 0.05) then "**"
        else if fltb pval (Fin 0.1) then "*"
        else "" in
      (* Format: coefficient with stars, standard error in parentheses on same line *)
      (fmt4 val ++ sig ++ " (" ++ fmt4 se ++ ")")%string
  | None => ""
  end.

Definition table_header : list string :=
  ["Regression"; "Int."; "S&P 500"; "Val.-Wgtd"; "30 Yr Treas."; "S,R²"].

(** The body of the loop that adds one row per regression. *)
Definition pdf_row (i : nat) (reg : RegressionResults) : list string :=
  let row := [fmt_index i] in
  let row := row ++ [create_cell_value reg "const"] in
  let row := row ++ [create_cell_value reg "SP500"] in
  let row := row ++ [create_cell_value reg "VW"] in
  let row := row ++ [create_cell_value reg "TYX"] in
  let resid_se := fsqrt (mse_resid reg) in
  let r_squared := rsquared reg in
  row ++ [(fmt4 resid_se ++ ", " ++ fmt4 r_squared)%string].

Fixpoint pdf_rows (i : nat) (regressions : list RegressionResults) : list (list string) :=
  match regressions with
  | [] => []
  | reg :: tl => pdf_row i reg :: pdf_rows (S i) tl
  end.

(** [table_data]: the header, then the rows. *)
Definition table_data (regressions : list RegressionResults) : list (list string) :=
  table_header :: pdf_rows 1 regressions.

(** The three paragraphs under the normal-distribution figure. *)
Definition distribution_parameters (stock_returns : list R) : list string :=
  let (mu, sigma) := norm_fit stock_returns in
  [ ("Mean (μ): " ++ fmt4 mu)%string;
    ("Standard Deviation (σ): " ++ fmt4 sigma)%string;
    ("Variance (σ²): " ++ fmt4 (fsquare sigma))%string ].

(** One line of the comparison statistics under the CDF figure. *)
Definition statistics_line (s : list R) : string :=
  ("Mean: " ++ fmt4 (pandas_mean s) ++ ", Std Dev: " ++ fmt4 (pandas_std s) ++
   ", Min: " ++ fmt4 (pandas_min s) ++ ", Max: " ++ fmt4 (pandas_max s))%string.

(** The standard deviation as each section prints it. *)
Definition printed_sigma (stock_returns : list R) : string :=
  fmt4 (snd (norm_fit stock_returns)).
Definition printed_std_dev (stock_returns : list R) : string :=
  fmt4 (pandas_std stock_returns).

End Report.

(* ================================================================== *)
(** * The caller: the start of [app.py] *)
(* ================================================================== *)

Module App.

Import Builder.

Section Script.

Variable download : list string -> string -> string -> outcome (list (date * Row float)).

(** What the script does after the observation metrics: the regressions
    and everything that follows them. *)
Variable A : Type.
Variable regress : Frame Z float -> outcome A.

(** [returns.index[0]] and [returns.index[-1]]. *)
Definition index_first {I X : Type} (f : Frame I X) : outcome I :=
  match body f with
  | [] => Raise IndexError
  | r :: _ => Ok (fst r)
  end.

Definition index_last {I X : Type} (f : Frame I X) : outcome I :=
  match rev (body f) with
  | [] => Raise IndexError
  | r :: _ => Ok (fst r)
  end.

(** The script from the download to the call of [run_regressions]. *)
Definition main (selected_stock_ticker start_date end_date : string) : outcome A :=
  returns <- load_data download selected_stock_ticker start_date end_date ;;
  (* Display data info *)
  first <- index_first returns ;;
  last <- index_last returns ;;
  (* Run regressions once for all visualizations *)
  regress returns.

End Script.

End App.

(* ================================================================== *)
(** * The specification's own definitions, and the inputs of the examples *)
(* ================================================================== *)

Module Spec.

Import Builder.

(** The significance marker of a p-value, in the specification's words. *)
Definition significance_stars (p : float) : string :=
  if fltb p (Fin 0.01) then "***"
  else if fltb p (Fin 0.05) then "**"
  else if fltb p (Fin 0.1) then "*"
  else "".

(** The cell text of a variable that is part of a model. *)
Definition cell_text (coef se p : float) : string :=
  (Format.fmt4 coef ++ significance_stars p ++ " (" ++ Format.fmt4 se ++ ")")%string.

(** The log return of one month: [ln (P_t / P_{t-1})], column by column. *)
Definition log_return (p q : Row float) : Row float :=
  row_map2 (fun a b => flog (fdiv a b)) p q.

(** A daily row without a missing value. *)
Definition complete (r : date * Row float) : bool := negb (has_na (snd r)).

(** The month-end prices the code uses: the last daily row of month [m]
    among the rows without a missing value. *)
Definition month_close (table : list (date * Row float)) (m : Z) : option (Row float) :=
  match rev (in_month (filter complete table) m) with
  | [] => None
  | p :: _ => Some p
  end.

(** The return series in the specification's three steps: month-end
    resampling, log returns, listwise deletion. *)
Definition build (stock_ticker : string) (table : list (date * Row float)) : Frame Z float :=
  let monthly_prices := resample_last (mkFrame stock_ticker table) in
  dropna (np_log (frame_div monthly_prices (shift1 monthly_prices))).

(** Contract B and its properties: [pts] is the empirical distribution
    of [data] when its values are the data in ascending order, the [i]-th
    of [n] has probability [i / (n - 1)], a single point has probability
    [0], and the probabilities do not decrease, lie in [[0, 1]], start at
    [0] and, for more than one point, end at [1]. *)
Definition is_empirical_cdf (data : list R) (pts : list (R * R)) : Prop :=
  let n := length data in
  let xs := map fst pts in
  let ps := map snd pts in
  length pts = n /\
  Permutation data xs /\
  Sorted Rle xs /\
  ((1 < n)%nat -> forall i, (i < n)%nat -> nth i ps 0%R = (INR i / INR (n - 1))%R) /\
  (n = 1%nat -> ps = [0%R]) /\
  Sorted Rle ps /\
  Forall (fun p => (0 <= p <= 1)%R) ps /\
  ((1 < n)%nat -> hd 0%R ps = 0%R /\ last ps 0%R = 1%R).

(** The mean, and the standard deviation with divisor [n] (population)
    and with divisor [n - 1] (sample). *)
Definition avg (data : list R) : R := (Rsum data / INR (length data))%R.

Definition sum_sq_dev (data : list R) : R :=
  Rsum (map (fun x => ((x - avg data) * (x - avg data))%R) data).

Definition population_sd (data : list R) : R :=
  sqrt (sum_sq_dev data / INR (length data)).

Definition sample_sd (data : list R) : R :=
  sqrt (sum_sq_dev data / (INR (length data) - 1)).

(** The failure of Contract A: the fit of a series without observations
    raises an error. *)
Definition fit_rejects_empty (I : Type) (returns : Frame I R) (stock_ticker : string) : Prop :=
  body returns = [] ->
  exists e, Distribution.plot_normal_distribution returns stock_ticker = Raise e.

(** The two printed standard deviations of one report differ. *)
Definition printed_deviations_differ (stock_returns : list R) : Prop :=
  Report.printed_sigma stock_returns <> Report.printed_std_dev stock_returns.

(** A series with two different values. *)
Definition non_constant (data : list R) : Prop :=
  exists x y, In x data /\ In y data /\ x <> y.



(** The factor sets of the five models, in the fixed order. *)
Definition model_factors : list (list string) :=
  [ ["SP500"]; ["VW"]; ["TYX"]; ["SP500"; "VW"]; ["SP500"; "VW"; "TYX"] ].

Section Models.

Variable solve : Design -> list R -> outcome Estimates.
Variable I : Type.
Variable returns : Frame I R.
Variable stock_ticker : string.

(** The fit of one model on its own: target on intercept and factors. *)
Definition fit_model (factors : list string) : outcome RegressionResults :=
  y <- getitem returns stock_ticker ;;
  f <- getitems returns factors ;;
  OLS_fit solve y (add_constant f).

(** Per-model isolation as the specification words it: whenever the fit
    of one model fails, the engine still returns a result list in which
    every other model has its own fit. *)
Definition failures_isolated : Prop :=
  forall (i : nat) (factors : list string) (e : exn),
    nth_error model_factors i = Some factors ->
    fit_model factors = Raise e ->
    exists slots : list RegressionResults,
      run_regressions solve returns stock_ticker = Ok slots /\
      forall (j : nat) (fs : list string) (r : RegressionResults),
        j <> i -> nth_error model_factors j = Some fs ->
        fit_model fs = Ok r -> nth_error slots j = Some r.

End Models.

Section Loading.

Variable download : list string -> string -> string -> outcome (list (date * Row float)).
Variables stock_ticker start end_ : string.

(** The failure of the builder as the specification words it: a series
    that [load_data] returns has at least two rows. *)
Definition rejects_short_series : Prop :=
  forall returns,
    load_data download stock_ticker start end_ = Ok returns ->
    (2 <= length (body returns))%nat.

(** The builder as the specification words it: the three steps, applied to
    the downloaded table. *)
Definition builds_in_three_steps : Prop :=
  forall table,
    download [stock_ticker; "^GSPC"; "^W5000"; "^TYX"] start end_ = Ok table ->
    load_data download stock_ticker start end_ = Ok (build stock_ticker table).

End Loading.

End Spec.

Module Examples.

Open Scope R_scope.

Definition frame_of (rows : list (Row R)) : Frame Z R :=
  mkFrame "MAS" (combine (map Z.of_nat (seq 0 (length rows))) rows).

(** Five months of returns in which the target follows the S&P 500 factor
    exactly and is uncorrelated with the two other factors. *)
Definition returns_example : Frame Z R :=
  frame_of [ mkRow 1 1 1 3; mkRow 2 2 0 1; mkRow 3 3 2 1; mkRow 4 4 0 1; mkRow 5 5 1 3 ].

(** The least-squares coefficients of the five models on [returns_example]. *)
Definition solver_example (X : Design) (y : list R) : outcome Estimates :=
  Ok (mkEstimates
        match names X with
        | [_; n] => if String.eqb n "SP500" then [0; 1] else [3; 0]
        | [_; _; _] => [0; 1; 0]
        | _ => [0; 1; 0; 0]
        end [] [] NaN).

(** A daily row in which the four instruments have the same price. *)
Definition quote (x : R) : Row float := mkRow (Fin x) (Fin x) (Fin x) (Fin x).

(** Two months of prices, one trading day each. *)
Definition table_two_months : list (date * Row float) :=
  [ (mkDate 2024 1 31, quote 1); (mkDate 2024 2 29, quote 2) ].

(** The last trading day of January has no Treasury quote. *)
Definition table_late_gap : list (date * Row float) :=
  [ (mkDate 2024 1 30, quote 1);
    (mkDate 2024 1 31, mkRow (Fin 3) (Fin 3) (Fin 3) NaN);
    (mkDate 2024 2 29, quote 2) ].

(** A data source that answers with a given table, and one that cannot be
    reached. *)
Definition serves (table : list (date * Row float))
  : list string -> string -> string -> outcome (list (date * Row float)) :=
  fun _ _ _ => Ok table.

Definition unreachable
  : list string -> string -> string -> outcome (list (date * Row float)) :=
  fun _ _ _ => Raise ConnectionError.

(** A return series without observations, and a short series of small
    returns. *)
Definition returns_empty : Frame Z R := mkFrame "MAS" [].

Definition small_returns : list R := [0; 0.00001].

Definition design_example (ns : list string) (rows : list (list R)) : Design :=
  mkDesign ("const" :: ns) (map (cons 1) rows).

(** The five fitted models of [returns_example]. *)
Definition regs_example : list RegressionResults :=
  let y := [1; 2; 3; 4; 5] in
  [ mkResults y (design_example ["SP500"] [[1]; [2]; [3]; [4]; [5]])
      (mkEstimates [0; 1] [] [] NaN);
    mkResults y (design_example ["VW"] [[1]; [0]; [2]; [0]; [1]])
      (mkEstimates [3; 0] [] [] NaN);
    mkResults y (design_example ["TYX"] [[3]; [1]; [1]; [1]; [3]])
      (mkEstimates [3; 0] [] [] NaN);
    mkResults y (design_example ["SP500"; "VW"] [[1; 1]; [2; 0]; [3; 2]; [4; 0]; [5; 1]])
      (mkEstimates [0; 1; 0] [] [] NaN);
    mkResults y (design_example ["SP500"; "VW"; "TYX"]
                   [[1; 1; 3]; [2; 0; 1]; [3; 2; 1]; [4; 0; 1]; [5; 1; 3]])
      (mkEstimates [0; 1; 0; 0] [] [] NaN) ].

(** Three months in which the two market factors coincide, so that the
    designs of models 4 and 5 are rank deficient. *)
Definition returns_collinear : Frame Z R :=
  frame_of [ mkRow 1 1 1 2; mkRow 2 2 2 1; mkRow 4 3 3 5 ].

(** The second and third columns of a design are the same. *)
Definition duplicate_columns (X : Design) : bool :=
  forallb (fun x => match x with
                    | _ :: a :: b :: _ => Reqb a b
                    | _ => false
                    end) (mat X).

(** A solver that rejects such a design and answers zeros otherwise. *)
Definition solver_strict (X : Design) (y : list R) : outcome Estimates :=
  if duplicate_columns X then Raise LinAlgError
  else Ok (mkEstimates (map (fun _ => 0) (names X)) [] [] NaN).

(** A fitted one-factor model whose slope is [1.23456], with standard
    error [0.04321] and p-value [0.002]. *)
Definition reg_example : RegressionResults :=
  mkResults [] (mkDesign ["SP500"] [])
    (mkEstimates [1.23456] [Fin 0.04321] [Fin 0.002] NaN).




(** Coefficients as a solver in floating point returns them on
    [returns_example]: those of [solver_example], with the intercept of
    the full model off by a thousandth. *)
Definition solver_inexact (X : Design) (y : list R) : outcome Estimates :=
  Ok (mkEstimates
        match names X with
        | [_; n] => if String.eqb n "SP500" then [0; 1] else [3; 0]
        | [_; _; _] => [0; 1; 0]
        | _ => [0.001; 1; 0; 0]
        end [] [] NaN).

Definition full_inexact : RegressionResults :=
  mkResults [1; 2; 3; 4; 5]
    (design_example ["SP500"; "VW"; "TYX"]
       [[1; 1; 3]; [2; 0; 1]; [3; 2; 1]; [4; 0; 1]; [5; 1; 3]])
    (mkEstimates [0.001; 1; 0; 0] [] [] NaN).

Definition regs_inexact : list RegressionResults :=
  let y := [1; 2; 3; 4; 5] in
  [ mkResults y (design_example ["SP500"] [[1]; [2]; [3]; [4]; [5]])
      (mkEstimates [0; 1] [] [] NaN);
    mkResults y (design_example ["VW"] [[1]; [0]; [2]; [0]; [1]])
      (mkEstimates [3; 0] [] [] NaN);
    mkResults y (design_example ["TYX"] [[3]; [1]; [1]; [1]; [3]])
      (mkEstimates [3; 0] [] [] NaN);
    mkResults y (design_example ["SP500"; "VW"] [[1; 1]; [2; 0]; [3; 2]; [4; 0]; [5; 1]])
      (mkEstimates [0; 1; 0] [] [] NaN);
    full_inexact ].

(** A return series of floats without observations, and two months of
    prices in which the stock ends at zero. *)
Definition float_returns_empty : Frame Z float := mkFrame "MAS" [].

Definition table_zero_price : list (date * Row float) :=
  [ (mkDate 2024 1 31, quote 1);
    (mkDate 2024 2 29, mkRow (Fin 0) (Fin 1) (Fin 1) (Fin 1)) ].

End Examples.

(* ================================================================== *)
(** * Series operations and inputs used by the further properties *)
(* ================================================================== *)

Module SeriesOps.

(** [series.dropna()] on one column of floats. *)
Definition series_dropna (s : list float) : list float :=
  filter (fun v => negb (isnan v)) s.

(** A daily row of four finite prices. *)
Definition prices (a b c d : R) : Row float := mkRow (Fin a) (Fin b) (Fin c) (Fin d).

(** The logarithm of the Gaussian likelihood of a sample for a mean [m]
    and a standard deviation [s]. *)
Definition gaussian_loglik (data : list R) (m s : R) : R :=
  Rsum (map (fun x => (- ln s - ln (sqrt (2 * PI)) - (x - m) * (x - m) / (2 * s * s))%R)
            data).

End SeriesOps.

(* ================================================================== *)
(** * The normal fit on a column that may hold infinite values *)
(* ================================================================== *)

Module FloatSeries.

Import SeriesOps.

(** The values of the finite entries of a column. *)
Definition finite_values (s : list float) : list R :=
  flat_map (fun v => match v with Fin x => [x] | _ => [] end) s.

(** [scipy.stats.norm.fit(data)]: data that hold a value that is not
    finite are refused with [ValueError]; otherwise the location is the
    mean and the scale the root of the mean squared deviation. *)
Definition norm_fit (data : list float) : outcome (float * float) :=
  if forallb isfinite data then Ok (Distribution.norm_fit (finite_values data))
  else Raise ValueError.

(** The part of [plot_normal_distribution] that computes, on a return
    series as [load_data] yields it: a column of floats. *)
Definition plot_normal_distribution {I : Type} (returns : Frame I float)
  (stock_ticker : string) : outcome (float * float) :=
  column <- getitem returns stock_ticker ;;
  let stock_returns := series_dropna column in
  (* Fit normal distribution *)
  norm_fit stock_returns.

End FloatSeries.

(* ================================================================== *)
(** * The normal fit in binary64 *)
(* ================================================================== *)

Module Binary64.

Import PrimFloat.

(** [numpy]'s sum of an array of fewer than eight elements: the elements
    are added one after the other, starting from [-0.0].  Longer arrays
    are summed in blocks, which this definition does not cover. *)
Definition np_sum (a : list float) : option float :=
  if Nat.ltb (length a) 8 then Some (fold_left add a (opp zero)) else None.

(** [len(a)] as a float. *)
Definition count (a : list float) : float :=
  of_uint63 (Uint63.of_Z (Z.of_nat (length a))).

(** [a.mean()]: the sum over the count. *)
Definition np_mean (a : list float) : option float :=
  option_map (fun total => div total (count a)) (np_sum a).

(** [scipy.stats.norm.fit(data)] on finite data:
    [loc = data.mean()], [scale = np.sqrt(((data - loc)**2).mean())]. *)
Definition norm_fit (data : list float) : option (float * float) :=
  match np_mean data with
  | Some loc =>
      option_map (fun v => (loc, sqrt v))
                 (np_mean (map (fun x => mul (sub x loc) (sub x loc)) data))
  | None => None
  end.

(** The binary64 number nearest to [0.1], the mean that three copies of
    it have in binary64 ([0.10000000000000002]) and their fitted scale
    ([2^-56], about [1.39e-17]). *)
Definition tenth : float := 0x1.999999999999ap-4%float.
Definition mean_of_tenths : float := 0x1.999999999999bp-4%float.
Definition sigma_of_tenths : float := 0x1p-56%float.

End Binary64.

(* ================================================================== *)
(** * The sidebar and the download names of [app.py] *)
(* ================================================================== *)

Module Script.

(** A Python [dict] of strings: its items in insertion order, one per key. *)
Definition Dict : Type := list (string * string).

(** [d[k] = v]: the value of a present key is replaced in place, a new key
    is added at the end. *)
Fixpoint dict_set (k v : string) (d : Dict) : Dict :=
  match d with
  | [] => [(k, v)]
  | (k', v') :: tl =>
      if String.eqb k k' then (k, v) :: tl else (k', v') :: dict_set k v tl
  end.

(** [d.get(k)]. *)
Fixpoint dict_get (k : string) (d : Dict) : option string :=
  match d with
  | [] => None
  | (k', v') :: tl => if String.eqb k k' then Some v' else dict_get k tl
  end.

Fixpoint insert_item (x : string * string) (l : Dict) : Dict :=
  match l with
  | [] => [x]
  | y :: tl => if String.leb (fst x) (fst y) then x :: l else y :: insert_item x tl
  end.

(** [dict(sorted(d.items()))]: the items in ascending order of the keys. *)
Definition sorted_items (d : Dict) : Dict := fold_right insert_item [] d.

(** [l.index(x)]. *)
Fixpoint list_index (x : string) (l : list string) : option nat :=
  match l with
  | [] => None
  | y :: tl => if String.eqb x y then Some 0%nat
               else option_map S (list_index x tl)
  end.

(** The options of the stock selector. *)
Definition stock_options (stock_tickers_dict : Dict) : Dict :=
  let stock_options := stock_tickers_dict in
  (* Add MAS as default option *)
  let stock_options := dict_set "MASCO (MAS)" "MAS" stock_options in
  sorted_items stock_options.

Definition option_names (stock_tickers_dict : Dict) : list string :=
  map fst (stock_options stock_tickers_dict).

(** The [index] argument of the selector: the place of the default name. *)
Definition default_index (stock_tickers_dict : Dict) : nat :=
  let keys := option_names stock_tickers_dict in
  if existsb (String.eqb "MASCO (MAS)") keys then
    match list_index "MASCO (MAS)" keys with
    | Some i => i
    | None => 0%nat
    end
  else 0%nat.

(** [s.replace(old, new)] for a pattern [old] of one character. *)
Fixpoint replace (old : ascii) (new : string) (s : string) : string :=
  match s with
  | EmptyString => EmptyString
  | String c tl =>
      if Ascii.eqb c old then (new ++ replace old new tl)%string
      else String c (replace old new tl)
  end.

(** The stock name as it enters the names of the downloaded files. *)
Definition safe_stock_name (selected_stock_name : string) : string :=
  replace "/" "_" (replace ")" "" (replace "(" "" (replace " " "_" selected_stock_name))).

(** The characters of a string. *)
Definition chars (s : string) : list ascii := list_ascii_of_string s.

End Script.

Module MoreExamples.

Import SeriesOps.

Open Scope R_scope.

(** January and March have a trading day, February has none. *)
Definition table_missing_month : list (date * Row float) :=
  [ (mkDate 2024 1 31, Examples.quote 1); (mkDate 2024 3 28, Examples.quote 2) ].

(** Three months of prices that double each month. *)
Definition table_three_months : list (date * Row float) :=
  [ (mkDate 2024 1 31, Examples.quote 1);
    (mkDate 2024 2 29, Examples.quote 2);
    (mkDate 2024 3 28, Examples.quote 4) ].

Definition doubling (k : nat) : R :=
  match k with
  | 0%nat => 1
  | 1%nat => 2
  | _ => 4
  end.

(** A small ticker dictionary. *)
Definition tickers_example : Script.Dict :=
  [ ("WABTEC", "WAB"); ("General_Dynamics", "GD"); ("PCG", "PCG") ].



End MoreExamples.

(* ================================================================== *)
(** * Facts about the Python values and the formatting *)
(* ================================================================== *)

Module PyFacts.

Open Scope R_scope.

Lemma Rltb_true (x y : R) : x < y -> Rltb x y = true.
Proof. intros H. unfold Rltb. destruct (Rlt_dec x y); [reflexivity | contradiction]. Qed.

Lemma Rltb_false (x y : R) : ~ x < y -> Rltb x y = false.
Proof. intros H. unfold Rltb. destruct (Rlt_dec x y); [contradiction | reflexivity]. Qed.

Lemma Reqb_true (x y : R) : x = y -> Reqb x y = true.
Proof. intros H. unfold Reqb. destruct (Req_dec_T x y); [reflexivity | contradiction]. Qed.

Lemma Reqb_false (x y : R) : x <> y -> Reqb x y = false.
Proof. intros H. unfold Reqb. destruct (Req_dec_T x y); [contradiction | reflexivity]. Qed.

Lemma Rleb_true (x y : R) : x <= y -> Rleb x y = true.
Proof. intros H. unfold Rleb. destruct (Rle_dec x y); [reflexivity | contradiction]. Qed.

Lemma Rleb_false (x y : R) : ~ x <= y -> Rleb x y = false.
Proof. intros H. unfold Rleb. destruct (Rle_dec x y); [contradiction | reflexivity]. Qed.

Lemma Reqb_eq (x y : R) : Reqb x y = true -> x = y.
Proof. unfold Reqb. destruct (Req_dec_T x y); [auto | discriminate]. Qed.

Lemma Reqb_neq (x y : R) : Reqb x y = false -> x <> y.
Proof. unfold Reqb. destruct (Req_dec_T x y); [discriminate | auto]. Qed.

Lemma Rleb_le (x y : R) : Rleb x y = true -> x <= y.
Proof. unfold Rleb. destruct (Rle_dec x y); [auto | discriminate]. Qed.

Lemma Rleb_gt (x y : R) : Rleb x y = false -> y < x.
Proof. unfold Rleb. destruct (Rle_dec x y); [discriminate | intros _; lra]. Qed.

Lemma bind_Ok {A B : Type} (c : outcome A) (k : A -> outcome B) (b : B) :
  bind c k = Ok b -> exists a, c = Ok a /\ k a = Ok b.
Proof. destruct c as [a | e]; simpl; [eauto | discriminate]. Qed.

End PyFacts.

Module FormatFacts.

Import Format PyFacts.

Open Scope R_scope.

(** A value strictly inside the rounding interval of [n] rounds to [n]. *)
Lemma round_half_even_unique (x : R) (n : Z) :
  IZR n - 1 / 2 < x < IZR n + 1 / 2 -> round_half_even x = n.
Proof.
  intros [Hlo Hhi]. unfold round_half_even.
  destruct (base_Int_part x) as [Hf1 Hf2].
  set (f := Int_part x) in *.
  destruct (Z_lt_le_dec f n) as [Hlt | Hge].
  - assert (Hfn : f = (n - 1)%Z).
    { assert (H0 : IZR (n - 1) < IZR (f + 1)) by (rewrite minus_IZR, plus_IZR; lra).
      apply lt_IZR in H0. lia. }
    rewrite Hfn, minus_IZR.
    rewrite Rltb_false by lra.
    rewrite Rltb_true by lra. lia.
  - assert (Hfn : f = n).
    { assert (H : IZR f < IZR (n + 1)) by (rewrite plus_IZR; lra).
      apply lt_IZR in H. lia. }
    rewrite Hfn. rewrite Rltb_true by lra. reflexivity.
Qed.

(** The text of a non-negative value, from the integer it rounds to. *)
Lemma fmt4_nonneg (x : R) (n : Z) :
  0 <= x -> IZR n - 1 / 2 < x * 10000 < IZR n + 1 / 2 ->
  fmt4 (Fin x) = fixed4 n.
Proof.
  intros Hx Hn. unfold fmt4.
  rewrite Rltb_false by lra.
  rewrite Rabs_pos_eq by exact Hx.
  rewrite (round_half_even_unique _ Hn). reflexivity.
Qed.

End FormatFacts.

(* ================================================================== *)
(** * The table formatter and the PDF table *)
(* ================================================================== *)

Module FormatterFacts.

Import Format PyFacts FormatFacts Spec Examples.

Open Scope R_scope.

Lemma series_mem_lookup (name : string) (s : Series) :
  series_mem name s = true <-> exists v, series_lookup name s = Some v.
Proof.
  induction s as [| [k v] tl IH]; simpl.
  - split; [discriminate | intros [v H]; discriminate].
  - destruct (String.eqb name k); simpl.
    + split; [eauto | reflexivity].
    + exact IH.
Qed.

Lemma series_lookup_In (name : string) (s : Series) (v : float) :
  series_lookup name s = Some v -> In name (map fst s).
Proof.
  induction s as [| [k w] tl IH]; simpl; [discriminate |].
  destruct (String.eqb name k) eqn:E.
  - apply String.eqb_eq in E. auto.
  - auto.
Qed.

Lemma In_label_names (d : Design) (vals : list float) (name : string) :
  In name (map fst (label d vals)) -> In name (names d).
Proof.
  unfold label. generalize (names d) as ns. revert vals.
  induction vals as [| v vs IH]; intros [| n ns]; simpl; try tauto.
  intros [H | H]; [auto | right; apply IH; exact H].
Qed.

(** A variable outside the design of a model has no coefficient. *)
Lemma params_outside_design (reg : RegressionResults) (var : string) :
  ~ In var (names (exog reg)) -> series_lookup var (params reg) = None.
Proof.
  intros Hn. destruct (series_lookup var (params reg)) as [v |] eqn:E; [| reflexivity].
  exfalso. apply Hn. apply series_lookup_In in E.
  exact (In_label_names _ _ _ E).
Qed.

Lemma reg_example_cell :
  Formatter.create_cell_value reg_example "SP500" = "1.2346*** (0.0432)".
Proof.
  unfold Formatter.create_cell_value, reg_example, params, bse, pvalues, label,
    series_get. cbn -[fmt4].
  rewrite (@fmt4_nonneg 1.23456 12346) by lra.
  rewrite (@fmt4_nonneg 0.04321 432) by lra.
  rewrite Rltb_true by lra.
  vm_compute. reflexivity.
Qed.

(** C4: for every regression result and variable, the table cell is empty
    when the variable is not in the model's design; when the model has a
    coefficient [coef], a standard error [se] and a p-value [p] for it, the
    cell is [coef] with four decimals, the stars of [p] ("***" below 0.01,
    "**" below 0.05, "*" below 0.10, nothing otherwise), a space and [se]
    with four decimals in parentheses; and the result with coefficient
    1.23456, standard error 0.04321 and p-value 0.002 gives the cell
    "1.2346*** (0.0432)". *)
Theorem create_cell_value_format (reg : RegressionResults) (var : string) :
  (~ In var (names (exog reg)) -> Formatter.create_cell_value reg var = "") /\
  (series_mem var (params reg) = false -> Formatter.create_cell_value reg var = "") /\
  (forall coef se p,
      series_lookup var (params reg) = Some coef ->
      series_lookup var (bse reg) = Some se ->
      series_lookup var (pvalues reg) = Some p ->
      Formatter.create_cell_value reg var = cell_text coef se p) /\
  (forall p : R,
      significance_stars (Fin p) =
      if Rlt_dec p 0.01 then "***"
      else if Rlt_dec p 0.05 then "**"
      else if Rlt_dec p 0.1 then "*" else "") /\
  Formatter.create_cell_value reg_example "SP500" = "1.2346*** (0.0432)".
Proof.
  split; [| split; [| split; [| split]]].
  - intros Hn. unfold Formatter.create_cell_value.
    rewrite (params_outside_design _ _ Hn). reflexivity.
  - intros Hm. unfold Formatter.create_cell_value.
    destruct (series_lookup var (params reg)) as [v |] eqn:E; [| reflexivity].
    assert (Ht : series_mem var (params reg) = true)
      by (apply series_mem_lookup; eauto).
    congruence.
  - intros coef se p Hc Hs Hp. unfold Formatter.create_cell_value, series_get.
    rewrite Hc, Hs, Hp. reflexivity.
  - intros p. unfold significance_stars, fltb, Rltb.
    destruct (Rlt_dec p 0.01), (Rlt_dec p 0.05), (Rlt_dec p 0.1); reflexivity.
  - exact reg_example_cell.
Qed.

(** The theorem at the example result: the slope cell, and the empty cell
    of a factor the model does not have. *)
Lemma create_cell_value_format_witness :
  Formatter.create_cell_value reg_example "VW" = "" /\
  Formatter.create_cell_value reg_example "SP500" =
    cell_text (Fin 1.23456) (Fin 0.04321) (Fin 0.002).
Proof.
  split.
  - apply (proj1 (create_cell_value_format reg_example "VW")).
    simpl. intros [H | []]. discriminate H.
  - apply (proj1 (proj2 (proj2 (create_cell_value_format reg_example "SP500"))));
      reflexivity.
Defined.

Lemma table_rows_values (regs : list RegressionResults) (i : nat) :
  map (map snd) (Formatter.table_rows i regs) = Report.pdf_rows i regs.
Proof.
  revert i. induction regs as [| reg tl IH]; intros i; simpl.
  - reflexivity.
  - rewrite IH. reflexivity.
Qed.

Lemma table_rows_keys (regs : list RegressionResults) (i : nat) :
  Forall (fun row => map fst row = Report.table_header) (Formatter.table_rows i regs).
Proof.
  revert i. induction regs as [| reg tl IH]; intros i; simpl; constructor.
  - reflexivity.
  - apply IH.
Qed.

Lemma table_rows_nth (regs : list RegressionResults) (i k : nat) (reg : RegressionResults) :
  nth_error regs k = Some reg ->
  nth_error (Formatter.table_rows i regs) k = Some (Formatter.table_row (i + k) reg).
Proof.
  revert i k. induction regs as [| r tl IH]; intros i [| k]; simpl; try discriminate.
  - intros H. injection H as ->. rewrite Nat.add_0_r. reflexivity.
  - intros H. rewrite (IH (S i) k H). f_equal. f_equal. lia.
Qed.

(** C9: for any list of regression results, the rows of the PDF table
    after its header are, cell for cell and in the same order, the values
    of the on-screen data frame, whose column labels are the PDF header;
    the row at position [k] of both describes the regression at position
    [k] and is numbered [k + 1], so five results appear in model order
    (1) to (5). *)
Theorem tables_agree (regs : list RegressionResults) :
  Report.table_data regs =
    Report.table_header :: map (map snd) (Formatter.create_regression_table_dataframe regs) /\
  Forall (fun row => map fst row = Report.table_header)
    (Formatter.create_regression_table_dataframe regs) /\
  (forall k reg, nth_error regs k = Some reg ->
     nth_error (Formatter.create_regression_table_dataframe regs) k =
       Some (Formatter.table_row (S k) reg) /\
     nth_error (Report.table_data regs) (S k) = Some (Report.pdf_row (S k) reg) /\
     map snd (Formatter.table_row (S k) reg) = Report.pdf_row (S k) reg /\
     hd_error (Report.pdf_row (S k) reg) = Some (fmt_index (S k))).
Proof.
  unfold Report.table_data, Formatter.create_regression_table_dataframe.
  split; [| split].
  - rewrite table_rows_values. reflexivity.
  - apply table_rows_keys.
  - intros k reg H.
    pose proof (table_rows_nth regs 1 k H) as Hs. simpl in Hs.
    split; [exact Hs |]. split; [| split; reflexivity].
    simpl. rewrite <- table_rows_values.
    rewrite nth_error_map, Hs. reflexivity.
Qed.

(** The theorem at a table of two copies of the example result. *)
Lemma tables_agree_witness :
  nth_error (Report.table_data [reg_example; reg_example]) 2 =
    Some (Report.pdf_row 2 reg_example).
Proof.
  apply (proj2 (proj2 (tables_agree [reg_example; reg_example])) 1%nat reg_example).
  reflexivity.
Defined.

End FormatterFacts.

(* ================================================================== *)
(** * The regression engine *)
(* ================================================================== *)

Module EngineFacts.

Import PyFacts Spec Examples.

Open Scope R_scope.

Section Engine.

Variable solve : Design -> list R -> outcome Estimates.
Variable I : Type.
Variable returns : Frame I R.
Variable stock_ticker : string.

Local Abbreviation fit := (fit_model solve returns stock_ticker).

(** The three factor labels always denote a column. *)
Lemma accessor_factor (name : string) :
  In name ["SP500"; "VW"; "TYX"] ->
  exists g : Row R -> R, accessor (ticker_of returns) name = Some g.
Proof.
  intros H. unfold accessor.
  destruct (String.eqb name (ticker_of returns)); [eauto |].
  simpl in H. destruct H as [<- | [<- | [<- | []]]]; simpl; eauto.
Qed.

(** A single column turned into a design is the selection of that column. *)
Lemma getitem_to_frame (name : string) :
  In name ["SP500"; "VW"; "TYX"] ->
  exists c, getitem returns name = Ok c /\
            getitems returns [name] = Ok (to_frame name c).
Proof.
  intros H. destruct (accessor_factor H) as [g Hg].
  unfold getitem, getitems, to_frame. simpl. rewrite Hg.
  eexists. split; [reflexivity |]. rewrite map_map. reflexivity.
Qed.

Lemma getitems_factors (ns : list string) :
  In ns model_factors -> exists f, getitems returns ns = Ok f.
Proof.
  intros H. unfold getitems.
  assert (Hall : forall n, In n ns -> In n ["SP500"; "VW"; "TYX"]).
  { simpl in H. intros n Hn.
    repeat (destruct H as [<- | H]; [simpl in *; tauto |]). destruct H. }
  assert (Hacc : exists gs, accessors (ticker_of returns) ns = Some gs).
  { clear H. induction ns as [| n tl IH]; simpl; [eauto |].
    destruct (accessor_factor (Hall n (or_introl eq_refl))) as [g ->].
    destruct IH as [gs ->]; [intros; apply Hall; right; assumption | eauto]. }
  destruct Hacc as [gs ->]. eauto.
Qed.

(** [run_regressions] is the five single fits, one after the other. *)
Lemma run_regressions_sequence :
  run_regressions solve returns stock_ticker =
    (reg1 <- fit ["SP500"] ;;
     reg2 <- fit ["VW"] ;;
     reg3 <- fit ["TYX"] ;;
     reg4 <- fit ["SP500"; "VW"] ;;
     reg5 <- fit ["SP500"; "VW"; "TYX"] ;;
     Ok [reg1; reg2; reg3; reg4; reg5]).
Proof.
  unfold run_regressions, fit_model.
  destruct (getitem returns stock_ticker) as [y | e]; [| reflexivity].
  destruct (@getitem_to_frame "SP500") as (c1 & -> & ->); [simpl; tauto |].
  destruct (@getitem_to_frame "VW") as (c2 & -> & ->); [simpl; tauto |].
  destruct (@getitem_to_frame "TYX") as (c3 & -> & ->); [simpl; tauto |].
  destruct (@getitems_factors ["SP500"; "VW"]) as [f4 ->]; [simpl; tauto |].
  destruct (@getitems_factors ["SP500"; "VW"; "TYX"]) as [f5 ->]; [simpl; tauto |].
  reflexivity.
Qed.

Lemma run_regressions_inv (regs : list RegressionResults) :
  run_regressions solve returns stock_ticker = Ok regs ->
  exists r1 r2 r3 r4 r5,
    regs = [r1; r2; r3; r4; r5] /\
    fit ["SP500"] = Ok r1 /\ fit ["VW"] = Ok r2 /\ fit ["TYX"] = Ok r3 /\
    fit ["SP500"; "VW"] = Ok r4 /\ fit ["SP500"; "VW"; "TYX"] = Ok r5.
Proof.
  rewrite run_regressions_sequence. intros H.
  apply bind_Ok in H. destruct H as (r1 & H1 & H).
  apply bind_Ok in H. destruct H as (r2 & H2 & H).
  apply bind_Ok in H. destruct H as (r3 & H3 & H).
  apply bind_Ok in H. destruct H as (r4 & H4 & H).
  apply bind_Ok in H. destruct H as (r5 & H5 & H).
  injection H as <-. exists r1, r2, r3, r4, r5. tauto.
Qed.

(** What a successful single fit was fitted on. *)
Lemma fit_model_inv (factors : list string) (r : RegressionResults) :
  fit factors = Ok r ->
  exists gy gs,
    accessor (ticker_of returns) stock_ticker = Some gy /\
    accessors (ticker_of returns) factors = Some gs /\
    endog r = map (fun t => gy (snd t)) (body returns) /\
    exog r = add_constant
               (mkDesign factors
                  (map (fun t => map (fun g : Row R -> R => g (snd t)) gs) (body returns))).
Proof.
  unfold fit_model, getitem, getitems, OLS_fit. intros H.
  destruct (accessor (ticker_of returns) stock_ticker) as [gy |]; [| discriminate].
  destruct (accessors (ticker_of returns) factors) as [gs |]; [| discriminate].
  simpl in H. apply bind_Ok in H. destruct H as (e & _ & H).
  injection H as <-. exists gy, gs. simpl. tauto.
Qed.

Lemma fit_model_nobs (factors : list string) (r : RegressionResults) :
  fit factors = Ok r -> nobs r = length (body returns).
Proof.
  intros H. destruct (fit_model_inv _ H) as (gy & gs & _ & _ & Hy & _).
  unfold nobs. rewrite Hy. apply length_map.
Qed.

End Engine.

(** C6: when [run_regressions] returns, it returns five results, and the
    observation count of each is the number of rows of the return series;
    so the count is the same for all five models. *)
Theorem same_observation_count
  (solve : Design -> list R -> outcome Estimates) (I : Type)
  (returns : Frame I R) (stock_ticker : string) (regs : list RegressionResults) :
  run_regressions solve returns stock_ticker = Ok regs ->
  length regs = 5%nat /\
  (forall r, In r regs -> nobs r = length (body returns)) /\
  (forall r r', In r regs -> In r' regs -> nobs r = nobs r').
Proof.
  intros H.
  destruct (run_regressions_inv _ _ _ H)
    as (r1 & r2 & r3 & r4 & r5 & -> & H1 & H2 & H3 & H4 & H5).
  assert (Hall : forall r, In r [r1; r2; r3; r4; r5] -> nobs r = length (body returns)).
  { intros r Hr. simpl in Hr.
    destruct Hr as [<- | [<- | [<- | [<- | [<- | []]]]]];
      eapply fit_model_nobs; eassumption. }
  split; [reflexivity |]. split; [exact Hall |].
  intros r r' Hr Hr'. rewrite (Hall r Hr), (Hall r' Hr'). reflexivity.
Qed.

End EngineFacts.

Ltac decide_reals :=
  repeat (match goal with
         | |- context [Reqb ?a ?b] =>
             first [ rewrite (@PyFacts.Reqb_false a b) by lra
                   | rewrite (@PyFacts.Reqb_true a b) by lra ]
         | |- context [Rltb ?a ?b] =>
             first [ rewrite (@PyFacts.Rltb_false a b) by lra
                   | rewrite (@PyFacts.Rltb_true a b) by lra ]
         | |- context [Rleb ?a ?b] =>
             first [ rewrite (@PyFacts.Rleb_false a b) by lra
                   | rewrite (@PyFacts.Rleb_true a b) by lra ]
         end; simpl).

Module NestedFacts.

Import PyFacts Spec Examples EngineFacts.

Open Scope R_scope.



Lemma dot3 (x y z : R) (b : list R) :
  dot [x; y; z] b = x * nth 0 b 0 + y * nth 1 b 0 + z * nth 2 b 0.
Proof. destruct b as [| b0 [| b1 [| b2 ?]]]; simpl; ring. Qed.

Lemma dot4 (x y z w : R) (b : list R) :
  dot [x; y; z; w] b = x * nth 0 b 0 + y * nth 1 b 0 + z * nth 2 b 0 + w * nth 3 b 0.
Proof. destruct b as [| b0 [| b1 [| b2 [| b3 ?]]]]; simpl; ring. Qed.

Lemma Rsum_sq_nonneg (l : list (R * R)) :
  0 <= Rsum (map (fun p => (fst p - snd p) * (fst p - snd p)) l).
Proof.
  induction l as [| p tl IH]; simpl; [lra |].
  pose proof (Rle_0_sqr (fst p - snd p)) as H. unfold Rsqr in H. lra.
Qed.

Lemma ssr_of_nonneg (X : list (list R)) (y b : list R) : 0 <= ssr_of X y b.
Proof. unfold ssr_of. apply Rsum_sq_nonneg. Qed.


Lemma is_const_inv {T : Type} (h : T -> R) (L : list T) :
  is_const (map h L) = true ->
  exists k, k <> 0 /\ forall t, In t L -> h t = k.
Proof.
  destruct L as [| t0 tl]; simpl; [discriminate |].
  intros H. apply andb_prop in H. destruct H as [Hall Hnz].
  exists (h t0). split.
  - apply Reqb_neq. destruct (Reqb (h t0) 0); [discriminate | reflexivity].
  - intros t [<- | Ht]; [reflexivity |].
    rewrite forallb_forall in Hall.
    symmetry. apply Reqb_eq. apply Hall. apply in_map. exact Ht.
Qed.

Section Nested.

Variable I : Type.
Variable tk : string.
Variable rows : list (I * Row R).
Variables g1 g2 g3 : Row R -> R.
Hypothesis Hg1 : accessor tk "SP500" = Some g1.
Hypothesis Hg2 : accessor tk "VW" = Some g2.
Hypothesis Hg3 : accessor tk "TYX" = Some g3.

Local Abbreviation h1 := (fun t : I * Row R => g1 (snd t)).
Local Abbreviation h2 := (fun t : I * Row R => g2 (snd t)).
Local Abbreviation h3 := (fun t : I * Row R => g3 (snd t)).
Local Abbreviation select gs :=
  (map (fun t : I * Row R => map (fun g : Row R -> R => g (snd t)) gs) rows).


(** The full model reaches every affine combination of the three factors,
    whether its constant was added or was already among the columns. *)
Lemma full_model_reaches (a0 a1 a2 a3 : R) :
  exists b,
    predict (mat (add_constant (mkDesign ["SP500"; "VW"; "TYX"] (select [g1; g2; g3])))) b =
    map (affine h1 h2 h3 a0 a1 a2 a3) rows.
Proof.
  unfold add_constant.
  destruct (has_constant (mkDesign ["SP500"; "VW"; "TYX"] (select [g1; g2; g3]))) eqn:E.
  - unfold has_constant, column in E. simpl in E.
    rewrite !map_map in E. simpl in E.
    rewrite orb_false_r in E.
    apply orb_prop in E. destruct E as [E | E]; [| apply orb_prop in E; destruct E as [E | E]];
      apply (is_const_inv (fun t : I * Row R => _ (snd t))) in E; destruct E as (k & Hk & Hall).
    + exists [a1 + a0 / k; a2; a3]. unfold predict. simpl mat. rewrite map_map.
      apply map_ext_in. intros t Ht. simpl map. rewrite dot3. unfold affine. simpl.
      rewrite (Hall t Ht). field. exact Hk.
    + exists [a1; a2 + a0 / k; a3]. unfold predict. simpl mat. rewrite map_map.
      apply map_ext_in. intros t Ht. simpl map. rewrite dot3. unfold affine. simpl.
      rewrite (Hall t Ht). field. exact Hk.
    + exists [a1; a2; a3 + a0 / k]. unfold predict. simpl mat. rewrite map_map.
      apply map_ext_in. intros t Ht. simpl map. rewrite dot3. unfold affine. simpl.
      rewrite (Hall t Ht). field. exact Hk.
  - exists [a0; a1; a2; a3]. unfold predict. simpl mat. rewrite !map_map.
    apply map_ext. intros t. simpl map. rewrite dot4. unfold affine. simpl. ring.
Qed.

End Nested.
Lemma rsquared_finite (r : RegressionResults) :
  0 < centered_tss r -> rsquared r = Fin (1 - ssr r / centered_tss r).
Proof.
  intros H. unfold rsquared. simpl. rewrite Reqb_false by lra. reflexivity.
Qed.

Lemma Rsum_sq_about_nonneg (m : R) (l : list R) :
  0 <= Rsum (map (fun v => (v - m) * (v - m)) l).
Proof.
  induction l as [| v tl IH]; simpl; [lra |].
  pose proof (Rle_0_sqr (v - m)) as H. unfold Rsqr in H. lra.
Qed.



Lemma Rsum_sq_about_zero (m : R) (l : list R) :
  Rsum (map (fun v => (v - m) * (v - m)) l) = 0 -> forall x, In x l -> x = m.
Proof.
  induction l as [| v tl IH]; simpl; intros H x Hx; [destruct Hx |].
  pose proof (Rle_0_sqr (v - m)) as Hv. unfold Rsqr in Hv.
  pose proof (Rsum_sq_about_nonneg m tl) as Htl.
  assert (Hv0 : (v - m) * (v - m) = 0) by lra.
  assert (Htl0 : Rsum (map (fun v => (v - m) * (v - m)) tl) = 0) by lra.
  destruct Hx as [<- | Hx].
  - apply Rmult_integral in Hv0. lra.
  - apply IH; assumption.
Qed.

(** The total sum of squares of a target that varies is positive. *)
Lemma varying_tss (y : list R) : non_constant y -> 0 < centered_tss_of y.
Proof.
  intros (a & b & Ha & Hb & Hab).
  destruct (Rsum_sq_about_nonneg (mean y) y) as [H | H]; [exact H |].
  exfalso. apply Hab. symmetry in H.
  rewrite (Rsum_sq_about_zero _ _ H a Ha), (Rsum_sq_about_zero _ _ H b Hb). reflexivity.
Qed.







Lemma run_example :
  run_regressions solver_example returns_example "MAS" = Ok regs_example.
Proof.
  rewrite run_regressions_sequence.
  unfold fit_model, getitem, getitems, OLS_fit, add_constant, has_constant, column, is_const.
  simpl. decide_reals. reflexivity.
Qed.

Lemma run_inexact :
  run_regressions solver_inexact returns_example "MAS" = Ok regs_inexact.
Proof.
  rewrite run_regressions_sequence.
  unfold fit_model, getitem, getitems, OLS_fit, add_constant, has_constant, column, is_const.
  simpl. decide_reals. reflexivity.
Qed.

(** The full model of the inexact example misses the least sum of squared
    residuals, which is zero, by five millionths. *)
Lemma inexact_within : least_squares_within 0.000005 full_inexact.
Proof.
  intros b.
  pose proof (ssr_of_nonneg (mat (exog full_inexact)) (endog full_inexact) b) as Hb.
  apply Rle_trans with (0 + 0.000005); [| lra].
  right. unfold ssr_of. simpl. lra.
Qed.

Lemma example_varies : non_constant [1; 2; 3; 4; 5].
Proof. exists 1, 2. simpl. split; [tauto |]. split; [tauto | lra]. Qed.






(** The theorem on the five-month example: every model reports five
    observations. *)
Lemma same_observation_count_witness :
  Forall (fun r => nobs r = 5%nat) regs_example.
Proof.
  apply Forall_forall.
  exact (proj1 (proj2 (@same_observation_count solver_example Z returns_example "MAS"
                         regs_example run_example))).
Defined.

End NestedFacts.

Module IsolationFacts.

Import PyFacts Spec Examples EngineFacts.

Open Scope R_scope.

(** C3, as the code has it: [run_regressions] returns a result list exactly
    when every one of the five fits succeeds, and the list then holds the
    five fits in model order; when the fit of any model raises, the call
    raises as a whole and returns no result for any model.  The exception
    is the one of the first model that fails. *)
Theorem run_regressions_all_or_nothing
  (solve : Design -> list R -> outcome Estimates) (I : Type)
  (returns : Frame I R) (stock_ticker : string) :
  (forall regs,
      run_regressions solve returns stock_ticker = Ok regs <->
      Forall2 (fun fs r => fit_model solve returns stock_ticker fs = Ok r)
              model_factors regs) /\
  (forall fs e,
      In fs model_factors ->
      fit_model solve returns stock_ticker fs = Raise e ->
      exists e', run_regressions solve returns stock_ticker = Raise e') /\
  (forall i fs e,
      nth_error model_factors i = Some fs ->
      fit_model solve returns stock_ticker fs = Raise e ->
      (forall j fs', (j < i)%nat -> nth_error model_factors j = Some fs' ->
                     exists r, fit_model solve returns stock_ticker fs' = Ok r) ->
      run_regressions solve returns stock_ticker = Raise e).
Proof.
  split; [| split].
  - intros regs. split.
    + intros H. destruct (run_regressions_inv _ _ _ H)
        as (r1 & r2 & r3 & r4 & r5 & -> & H1 & H2 & H3 & H4 & H5).
      unfold model_factors. repeat constructor; assumption.
    + intros H. unfold model_factors in H.
      repeat match goal with
             | H : Forall2 _ (_ :: _) _ |- _ => inversion H; subst; clear H
             | H : Forall2 _ [] _ |- _ => inversion H; subst; clear H
             end.
      rewrite run_regressions_sequence.
      repeat match goal with H : fit_model _ _ _ _ = Ok _ |- _ => rewrite H; clear H end.
      reflexivity.
  - intros fs e Hin Hfs. rewrite run_regressions_sequence.
    simpl in Hin.
    destruct (fit_model solve returns stock_ticker ["SP500"]) as [r1 | e1] eqn:E1;
      [| simpl; eauto].
    destruct (fit_model solve returns stock_ticker ["VW"]) as [r2 | e2] eqn:E2;
      [| simpl; eauto].
    destruct (fit_model solve returns stock_ticker ["TYX"]) as [r3 | e3] eqn:E3;
      [| simpl; eauto].
    destruct (fit_model solve returns stock_ticker ["SP500"; "VW"]) as [r4 | e4] eqn:E4;
      [| simpl; eauto].
    destruct (fit_model solve returns stock_ticker ["SP500"; "VW"; "TYX"]) as [r5 | e5] eqn:E5;
      [| simpl; eauto].
    exfalso.
    destruct Hin as [<- | [<- | [<- | [<- | [<- | []]]]]]; congruence.
  - intros i fs e Hi Hfs Hbefore. rewrite run_regressions_sequence.
    assert (Hb : forall j fs', (j < i)%nat -> nth_error model_factors j = Some fs' ->
                   forall e', fit_model solve returns stock_ticker fs' <> Raise e').
    { intros j fs' Hj Hn e' He. destruct (Hbefore j fs' Hj Hn) as [r Hr]. congruence. }
    clear Hbefore.
    destruct i as [| [| [| [| [| i]]]]]; simpl in Hi;
      try (destruct i; discriminate); injection Hi as <-.
    + rewrite Hfs. reflexivity.
    + destruct (fit_model solve returns stock_ticker ["SP500"]) as [r1 | e1] eqn:E1;
        [| exfalso; apply (Hb 0%nat _ ltac:(lia) eq_refl e1 E1)].
      simpl. rewrite Hfs. reflexivity.
    + destruct (fit_model solve returns stock_ticker ["SP500"]) as [r1 | e1] eqn:E1;
        [| exfalso; apply (Hb 0%nat _ ltac:(lia) eq_refl e1 E1)].
      destruct (fit_model solve returns stock_ticker ["VW"]) as [r2 | e2] eqn:E2;
        [| exfalso; apply (Hb 1%nat _ ltac:(lia) eq_refl e2 E2)].
      simpl. rewrite Hfs. reflexivity.
    + destruct (fit_model solve returns stock_ticker ["SP500"]) as [r1 | e1] eqn:E1;
        [| exfalso; apply (Hb 0%nat _ ltac:(lia) eq_refl e1 E1)].
      destruct (fit_model solve returns stock_ticker ["VW"]) as [r2 | e2] eqn:E2;
        [| exfalso; apply (Hb 1%nat _ ltac:(lia) eq_refl e2 E2)].
      destruct (fit_model solve returns stock_ticker ["TYX"]) as [r3 | e3] eqn:E3;
        [| exfalso; apply (Hb 2%nat _ ltac:(lia) eq_refl e3 E3)].
      simpl. rewrite Hfs. reflexivity.
    + destruct (fit_model solve returns stock_ticker ["SP500"]) as [r1 | e1] eqn:E1;
        [| exfalso; apply (Hb 0%nat _ ltac:(lia) eq_refl e1 E1)].
      destruct (fit_model solve returns stock_ticker ["VW"]) as [r2 | e2] eqn:E2;
        [| exfalso; apply (Hb 1%nat _ ltac:(lia) eq_refl e2 E2)].
      destruct (fit_model solve returns stock_ticker ["TYX"]) as [r3 | e3] eqn:E3;
        [| exfalso; apply (Hb 2%nat _ ltac:(lia) eq_refl e3 E3)].
      destruct (fit_model solve returns stock_ticker ["SP500"; "VW"]) as [r4 | e4] eqn:E4;
        [| exfalso; apply (Hb 3%nat _ ltac:(lia) eq_refl e4 E4)].
      simpl. rewrite Hfs. reflexivity.
Qed.

Ltac run_fit :=
  unfold fit_model, getitem, getitems, OLS_fit, solver_strict, duplicate_columns,
    add_constant, has_constant, column, is_const;
  simpl; decide_reals.

Lemma collinear_fit4 :
  fit_model solver_strict returns_collinear "MAS" ["SP500"; "VW"] = Raise LinAlgError.
Proof. run_fit. reflexivity. Qed.

Lemma collinear_fit1 :
  exists r, fit_model solver_strict returns_collinear "MAS" ["SP500"] = Ok r.
Proof. run_fit. eauto. Qed.

Lemma collinear_fit2 :
  exists r, fit_model solver_strict returns_collinear "MAS" ["VW"] = Ok r.
Proof. run_fit. eauto. Qed.

Lemma collinear_fit3 :
  exists r, fit_model solver_strict returns_collinear "MAS" ["TYX"] = Ok r.
Proof. run_fit. eauto. Qed.

Lemma collinear_run :
  run_regressions solver_strict returns_collinear "MAS" = Raise LinAlgError.
Proof.
  rewrite run_regressions_sequence.
  destruct collinear_fit1 as [r1 ->], collinear_fit2 as [r2 ->], collinear_fit3 as [r3 ->].
  simpl. rewrite collinear_fit4. reflexivity.
Qed.

Lemma fit_model_total
  (solve : Design -> list R -> outcome Estimates) (I : Type)
  (returns : Frame I R) (stock_ticker : string) (y : list R) (fs : list string) :
  (forall X y', exists e, solve X y' = Ok e) ->
  getitem returns stock_ticker = Ok y ->
  In fs model_factors ->
  exists r, fit_model solve returns stock_ticker fs = Ok r.
Proof.
  intros Ht Hy Hin. unfold fit_model. rewrite Hy.
  destruct (@getitems_factors I returns fs Hin) as [f ->]. cbn [bind].
  unfold OLS_fit. destruct (Ht (add_constant f) y) as [e ->]. cbn [bind]. eauto.
Qed.

Lemma run_regressions_total
  (solve : Design -> list R -> outcome Estimates) (I : Type)
  (returns : Frame I R) (stock_ticker : string) (y : list R) :
  (forall X y', exists e, solve X y' = Ok e) ->
  getitem returns stock_ticker = Ok y ->
  exists regs,
    run_regressions solve returns stock_ticker = Ok regs /\ length regs = 5%nat.
Proof.
  intros Ht Hy. rewrite run_regressions_sequence.
  destruct (@fit_model_total solve I returns stock_ticker y ["SP500"] Ht Hy)
    as [r1 ->]; [simpl; tauto |].
  destruct (@fit_model_total solve I returns stock_ticker y ["VW"] Ht Hy)
    as [r2 ->]; [simpl; tauto |].
  destruct (@fit_model_total solve I returns stock_ticker y ["TYX"] Ht Hy)
    as [r3 ->]; [simpl; tauto |].
  destruct (@fit_model_total solve I returns stock_ticker y ["SP500"; "VW"] Ht Hy)
    as [r4 ->]; [simpl; tauto |].
  destruct (@fit_model_total solve I returns stock_ticker y ["SP500"; "VW"; "TYX"] Ht Hy)
    as [r5 ->]; [simpl; tauto |].
  cbn [bind]. eexists. split; reflexivity.
Qed.

(** C3 fails on the code: with two coinciding market factors the design of
    model 4 is rank deficient.  With a solver that rejects such a design,
    the fits of models 1 to 3 succeed on their own, and yet
    [run_regressions] raises and returns nothing, so the failure is not
    isolated to its model.  With a solver that answers for every design, as
    a pseudo-inverse does, [run_regressions] returns five results and
    reports no failure at all. *)
Lemma failures_not_isolated :
  (exists r1 r2 r3,
      fit_model solver_strict returns_collinear "MAS" ["SP500"] = Ok r1 /\
      fit_model solver_strict returns_collinear "MAS" ["VW"] = Ok r2 /\
      fit_model solver_strict returns_collinear "MAS" ["TYX"] = Ok r3) /\
  fit_model solver_strict returns_collinear "MAS" ["SP500"; "VW"] = Raise LinAlgError /\
  run_regressions solver_strict returns_collinear "MAS" = Raise LinAlgError /\
  ~ failures_isolated solver_strict returns_collinear "MAS" /\
  (forall solve : Design -> list R -> outcome Estimates,
      (forall X y, exists e, solve X y = Ok e) ->
      exists regs,
        run_regressions solve returns_collinear "MAS" = Ok regs /\
        length regs = 5%nat).
Proof.
  split; [| split; [| split; [| split]]].
  - destruct collinear_fit1 as [r1 H1], collinear_fit2 as [r2 H2], collinear_fit3 as [r3 H3].
    exists r1, r2, r3. tauto.
  - exact collinear_fit4.
  - exact collinear_run.
  - intros H.
    destruct (H 3%nat ["SP500"; "VW"] LinAlgError eq_refl collinear_fit4) as (slots & Hs & _).
    rewrite collinear_run in Hs. discriminate Hs.
  - intros solve Ht. eapply run_regressions_total; [exact Ht | reflexivity].
Qed.

(** The theorem on the collinear example: the failure of model 4 makes the
    whole call raise its exception. *)
Lemma run_regressions_all_or_nothing_witness :
  run_regressions solver_strict returns_collinear "MAS" = Raise LinAlgError.
Proof.
  apply (proj2 (proj2 (run_regressions_all_or_nothing solver_strict returns_collinear "MAS"))
           3%nat ["SP500"; "VW"] LinAlgError eq_refl collinear_fit4).
  intros j fs' Hj Hn.
  destruct j as [| [| [| j]]]; [| | | lia]; simpl in Hn; injection Hn as <-.
  - exact collinear_fit1.
  - exact collinear_fit2.
  - exact collinear_fit3.
Defined.

End IsolationFacts.

(* ================================================================== *)
(** * Distribution analysis *)
(* ================================================================== *)

Module DistributionFacts.

Import PyFacts Spec Examples Distribution.

Open Scope R_scope.

(** ** Sorting *)

Lemma insert_perm (x : R) (l : list R) : Permutation (x :: l) (insert x l).
Proof.
  induction l as [| y tl IH]; simpl; [apply Permutation_refl |].
  destruct (Rleb x y); [apply Permutation_refl |].
  eapply perm_trans; [apply perm_swap |]. apply perm_skip. exact IH.
Qed.

Lemma insert_hd (x a : R) (l : list R) :
  a <= x -> HdRel Rle a l -> HdRel Rle a (insert x l).
Proof.
  intros Hax H. destruct l as [| y tl]; simpl.
  - constructor. exact Hax.
  - destruct (Rleb x y); constructor; [exact Hax |].
    inversion H; assumption.
Qed.

Lemma insert_sorted (x : R) (l : list R) : Sorted Rle l -> Sorted Rle (insert x l).
Proof.
  induction l as [| y tl IH]; simpl; intros Hs.
  - repeat constructor.
  - inversion Hs as [| ? ? Htl Hhd]; subst.
    destruct (Rleb x y) eqn:E.
    + constructor; [exact Hs |]. constructor. apply Rleb_le. exact E.
    + constructor; [apply IH; exact Htl |].
      apply insert_hd; [| exact Hhd]. left. apply Rleb_gt. exact E.
Qed.

Lemma np_sort_perm (l : list R) : Permutation l (np_sort l).
Proof.
  induction l as [| x tl IH]; simpl; [constructor |].
  eapply perm_trans; [apply perm_skip, IH |]. apply insert_perm.
Qed.

Lemma np_sort_sorted (l : list R) : Sorted Rle (np_sort l).
Proof.
  induction l as [| x tl IH]; simpl; [constructor |].
  apply insert_sorted. exact IH.
Qed.

Lemma np_sort_length (l : list R) : length (np_sort l) = length l.
Proof. symmetry. apply Permutation_length, np_sort_perm. Qed.

(** ** The probability grid *)

Lemma linspace_one : linspace 0 1 1 = [0].
Proof. unfold linspace. simpl. f_equal. ring. Qed.

Lemma linspace_unit (num : nat) :
  (1 < num)%nat ->
  linspace 0 1 num = map (fun i => INR i / INR (num - 1)) (seq 0 num).
Proof.
  intros Hn. destruct num as [| [| k]]; try lia. clear Hn.
  unfold linspace.
  replace (S (S k) - 1)%nat with (S k) by lia.
  assert (Hk : 0 < INR (S k)) by (apply lt_0_INR; lia).
  change (Nat.ltb 0 (S k)) with true. cbv iota.
  rewrite Reqb_false.
  2:{ apply Rgt_not_eq. unfold Rdiv. rewrite Rminus_0_r, Rmult_1_l.
      apply Rinv_0_lt_compat. exact Hk. }
  change (Nat.ltb 1 (S (S k))) with true. cbv iota.
  rewrite !map_map. rewrite (seq_S (S k) 0), !map_app. cbn [map].
  rewrite removelast_last.
  f_equal.
  - apply map_ext. intros i. field. apply Rgt_not_eq. exact Hk.
  - f_equal. cbn [plus]. field. apply Rgt_not_eq. exact Hk.
Qed.

Lemma linspace_length (num : nat) : length (linspace 0 1 num) = num.
Proof.
  destruct num as [| [| k]].
  - reflexivity.
  - reflexivity.
  - rewrite linspace_unit by lia. rewrite length_map, length_seq. reflexivity.
Qed.

Lemma sorted_map_seq (f : nat -> R) :
  (forall i, f i <= f (S i)) -> forall n s, Sorted Rle (map f (seq s n)).
Proof.
  intros Hf. induction n as [| n IH]; intros s; simpl; constructor.
  - apply IH.
  - destruct n; simpl; constructor. apply Hf.
Qed.

Lemma fst_combine {A B : Type} (l : list A) (l' : list B) :
  length l = length l' -> map fst (combine l l') = l.
Proof.
  revert l'. induction l as [| a tl IH]; intros [| b tl']; simpl; try discriminate.
  - reflexivity.
  - intros H. f_equal. apply IH. lia.
Qed.

Lemma snd_combine {A B : Type} (l : list A) (l' : list B) :
  length l = length l' -> map snd (combine l l') = l'.
Proof.
  revert l'. induction l as [| a tl IH]; intros [| b tl']; simpl; try discriminate.
  - reflexivity.
  - intros H. f_equal. apply IH. lia.
Qed.

Lemma nth_map_seq (f : nat -> R) (n i : nat) (d : R) :
  (i < n)%nat -> nth i (map f (seq 0 n)) d = f i.
Proof.
  intros Hi.
  rewrite (nth_indep _ d (f 0%nat)) by (rewrite length_map, length_seq; exact Hi).
  rewrite (map_nth f (seq 0 n) 0%nat i), seq_nth by exact Hi. reflexivity.
Qed.

Lemma grid_step (n i : nat) : INR i / INR n <= INR (S i) / INR n.
Proof.
  destruct n as [| n].
  - simpl. unfold Rdiv. rewrite Rinv_0. lra.
  - assert (Hn : 0 < INR (S n)) by (apply lt_0_INR; lia).
    unfold Rdiv. apply Rmult_le_compat_r.
    + left. apply Rinv_0_lt_compat. exact Hn.
    + rewrite S_INR. lra.
Qed.

(** The points that [plot_cdf] scatters for one series. *)
Lemma sorted_grid_is_cdf (data : list R) :
  is_empirical_cdf data
    (combine (np_sort data) (linspace 0 1 (length (np_sort data)))).
Proof.
  unfold is_empirical_cdf.
  pose proof (np_sort_length data) as Hlen.
  pose proof (linspace_length (length (np_sort data))) as Hgrid.
  rewrite fst_combine, snd_combine by congruence.
  rewrite length_combine, Hgrid, Nat.min_id, Hlen.
  split; [reflexivity |].
  split; [apply np_sort_perm |].
  split; [apply np_sort_sorted |].
  set (n := length data) in *.
  split; [| split; [| split; [| split]]].
  - intros Hn i Hi. rewrite linspace_unit by exact Hn.
    apply (nth_map_seq (fun i => INR i / INR (n - 1))). exact Hi.
  - intros ->. apply linspace_one.
  - destruct n as [| [| k]].
    + constructor.
    + rewrite linspace_one. repeat constructor.
    + rewrite linspace_unit by lia. apply sorted_map_seq. intros i. apply grid_step.
  - destruct n as [| [| k]].
    + constructor.
    + rewrite linspace_one. repeat constructor; lra.
    + rewrite linspace_unit by lia. apply Forall_forall. intros p Hp.
      apply in_map_iff in Hp. destruct Hp as (i & <- & Hi).
      apply in_seq in Hi. replace (S (S k) - 1)%nat with (S k) by lia.
      assert (Hk : 0 < INR (S k)) by (apply lt_0_INR; lia).
      assert (Hi' : 0 <= INR i <= INR (S k)).
      { split; [apply pos_INR | apply le_INR; lia]. }
      split.
      * apply Rmult_le_pos; [lra |]. left. apply Rinv_0_lt_compat. exact Hk.
      * apply Rmult_le_reg_r with (INR (S k)); [exact Hk |].
        unfold Rdiv. rewrite Rmult_assoc, Rinv_l by lra. lra.
  - intros Hn. rewrite linspace_unit by exact Hn.
    destruct n as [| [| k]]; try lia.
    replace (S (S k) - 1)%nat with (S k) by lia.
    assert (Hk : INR (S k) <> 0) by (apply not_0_INR; lia).
    split.
    + cbn [seq map hd]. cbn [INR]. unfold Rdiv. ring.
    + rewrite (seq_S (S k) 0), map_app. cbn [map]. rewrite last_last.
      cbn [plus]. field. exact Hk.
Qed.

(** C5: the two scatter series of [plot_cdf] are the empirical
    distributions of the target column and of the S&P 500 column: the
    values in ascending order, the [i]-th of [n] paired with [i / (n - 1)];
    the probabilities do not decrease, lie in [[0, 1]], start at 0 and end
    at 1 when [n > 1]; a single point is paired with 0. *)
Theorem plot_cdf_empirical (I : Type) (returns : Frame I R) (stock_ticker : string) :
  (forall stock_returns,
      getitem returns stock_ticker = Ok stock_returns ->
      exists cdf_stock cdf_sp, plot_cdf returns stock_ticker = Ok (cdf_stock, cdf_sp)) /\
  (forall cdf_stock cdf_sp,
      plot_cdf returns stock_ticker = Ok (cdf_stock, cdf_sp) ->
      exists stock_returns sp,
        getitem returns stock_ticker = Ok stock_returns /\
        getitem returns "SP500" = Ok sp /\
        is_empirical_cdf stock_returns cdf_stock /\
        is_empirical_cdf sp cdf_sp).
Proof.
  split.
  - intros stock_returns Hs. unfold plot_cdf. rewrite Hs.
    destruct (@EngineFacts.accessor_factor I returns "SP500") as [g Hg]; [simpl; tauto |].
    unfold getitem at 1. rewrite Hg. simpl. eauto.
  - unfold plot_cdf. intros cdf_stock cdf_sp H.
    apply bind_Ok in H. destruct H as (stock_returns & Hs & H).
    apply bind_Ok in H. destruct H as (sp & Hsp & H).
    injection H as <- <-.
    exists stock_returns, sp.
    split; [exact Hs |]. split; [exact Hsp |]. split; apply sorted_grid_is_cdf.
Qed.

(** The theorem on the five-month example. *)
Lemma plot_cdf_empirical_witness :
  exists cdf_stock cdf_sp,
    plot_cdf returns_example "MAS" = Ok (cdf_stock, cdf_sp) /\
    is_empirical_cdf [1; 2; 3; 4; 5] cdf_stock.
Proof.
  eexists. eexists. split; [reflexivity |].
  destruct (proj2 (@plot_cdf_empirical Z returns_example "MAS") _ _ eq_refl)
    as (s & sp & Hs & _ & H & _).
  injection Hs as <-. exact H.
Defined.

End DistributionFacts.

Module FitFacts.

Import PyFacts Format FormatFacts Spec Examples Distribution.

Open Scope R_scope.

Lemma Rsum_sq_dev_nonneg (m : R) (data : list R) :
  0 <= Rsum (map (fun x => (x - m) * (x - m)) data).
Proof. apply NestedFacts.Rsum_sq_about_nonneg. Qed.

Lemma Rsum_sq_dev_zero (m : R) (data : list R) :
  Rsum (map (fun x => (x - m) * (x - m)) data) = 0 ->
  forall x, In x data -> x = m.
Proof.
  induction data as [| y tl IH]; simpl; [tauto |].
  intros H x Hx.
  pose proof (Rle_0_sqr (y - m)) as Hy. unfold Rsqr in Hy.
  pose proof (Rsum_sq_dev_nonneg m tl) as Htl.
  assert (Hy0 : (y - m) * (y - m) = 0) by lra.
  assert (Htl0 : Rsum (map (fun x => (x - m) * (x - m)) tl) = 0) by lra.
  destruct Hx as [<- | Hx].
  - apply Rmult_integral in Hy0. lra.
  - apply IH; assumption.
Qed.

Lemma sum_sq_dev_nonneg (data : list R) : 0 <= sum_sq_dev data.
Proof. apply Rsum_sq_dev_nonneg. Qed.

Lemma sum_sq_dev_pos (data : list R) : non_constant data -> 0 < sum_sq_dev data.
Proof.
  intros (x & y & Hx & Hy & Hxy).
  destruct (sum_sq_dev_nonneg data) as [H | H]; [exact H |].
  exfalso. apply Hxy. symmetry in H.
  rewrite (Rsum_sq_dev_zero _ _ H x Hx), (Rsum_sq_dev_zero _ _ H y Hy). reflexivity.
Qed.

Lemma INR_length_pos {A : Type} (l : list A) : l <> [] -> 0 < INR (length l).
Proof. intros H. apply lt_0_INR. destruct l; [contradiction | simpl; lia]. Qed.

Lemma np_mean_nonempty (data : list R) :
  data <> [] -> np_mean data = Fin (avg data).
Proof.
  intros H. unfold np_mean, fdiv, avg.
  rewrite Reqb_false; [reflexivity |].
  apply Rgt_not_eq, INR_length_pos. exact H.
Qed.

Lemma avg_sq_dev (data : list R) :
  avg (map (fun x => (x - avg data) * (x - avg data)) data) =
  sum_sq_dev data / INR (length data).
Proof. unfold sum_sq_dev. unfold avg at 1. rewrite length_map. reflexivity. Qed.

Lemma norm_fit_nonempty (data : list R) :
  data <> [] -> norm_fit data = (Fin (avg data), Fin (population_sd data)).
Proof.
  intros H. unfold norm_fit. rewrite (np_mean_nonempty H).
  f_equal. rewrite np_mean_nonempty by (destruct data; [contradiction | discriminate]).
  rewrite avg_sq_dev. unfold fsqrt, population_sd.
  rewrite Rltb_false; [reflexivity |].
  apply Rle_not_lt. apply Rmult_le_pos; [apply sum_sq_dev_nonneg |].
  left. apply Rinv_0_lt_compat, INR_length_pos. exact H.
Qed.

Lemma Rsum_repeat (c : R) (n : nat) : Rsum (repeat c n) = INR n * c.
Proof.
  induction n as [| n IH]; [simpl; ring |].
  cbn [repeat Rsum]. rewrite IH, S_INR. ring.
Qed.

Lemma avg_repeat (c : R) (n : nat) : (0 < n)%nat -> avg (repeat c n) = c.
Proof.
  intros Hn. unfold avg. rewrite Rsum_repeat, repeat_length.
  field. apply not_0_INR. lia.
Qed.

Lemma sum_sq_dev_repeat (c : R) (n : nat) : (0 < n)%nat -> sum_sq_dev (repeat c n) = 0.
Proof.
  intros Hn. unfold sum_sq_dev. rewrite (avg_repeat c Hn).
  clear Hn. induction n as [| n IH]; simpl; [reflexivity |]. rewrite IH. ring.
Qed.

Lemma finite_values_map (xs : list R) : FloatSeries.finite_values (map Fin xs) = xs.
Proof.
  induction xs as [| x tl IH]; [reflexivity |].
  unfold FloatSeries.finite_values in *. simpl. rewrite IH. reflexivity.
Qed.

Lemma forallb_isfinite_map (xs : list R) : forallb isfinite (map Fin xs) = true.
Proof. induction xs as [| x tl IH]; [reflexivity | exact IH]. Qed.

Lemma not_all_finite (data : list float) :
  forallb isfinite data = false <-> exists v, In v data /\ isfinite v = false.
Proof.
  split.
  - intros H. induction data as [| v tl IH]; [discriminate |].
    simpl in H. destruct (isfinite v) eqn:E.
    + destruct (IH H) as (w & Hw & Hf). exists w. split; [right; exact Hw | exact Hf].
    + exists v. split; [left; reflexivity | exact E].
  - intros (v & Hv & Hf).
    destruct (forallb isfinite data) eqn:E; [| reflexivity].
    rewrite forallb_forall in E. rewrite (E v Hv) in Hf. discriminate.
Qed.

Lemma norm_fit_empty : norm_fit [] = (NaN, NaN).
Proof.
  unfold norm_fit, np_mean, fdiv. simpl.
  rewrite Reqb_true by reflexivity. reflexivity.
Qed.

(** C8, as the code has it: on finite data with at least one observation
    the fit returns the mean and the standard deviation with divisor [n]
    (population, not [n - 1]); on data without observations it does not
    fail: it returns the pair [(NaN, NaN)]; it fails exactly when the data
    hold a value that is not finite, with [ValueError] and with no other
    error; and [plot_normal_distribution] gives the fit of the target
    column without its missing values. *)
Theorem norm_fit_estimates (data : list float) :
  (forall xs, data = map Fin xs -> xs <> [] ->
     FloatSeries.norm_fit data = Ok (Fin (avg xs), Fin (population_sd xs))) /\
  (data = [] -> FloatSeries.norm_fit data = Ok (NaN, NaN)) /\
  ((exists v, In v data /\ isfinite v = false) <->
   FloatSeries.norm_fit data = Raise ValueError) /\
  (forall e, FloatSeries.norm_fit data = Raise e -> e = ValueError) /\
  (forall (I : Type) (returns : Frame I float) (stock_ticker : string)
          (column : list float),
      getitem returns stock_ticker = Ok column ->
      SeriesOps.series_dropna column = data ->
      FloatSeries.plot_normal_distribution returns stock_ticker =
      FloatSeries.norm_fit data).
Proof.
  split; [| split; [| split; [| split]]].
  - intros xs -> Hne. unfold FloatSeries.norm_fit.
    rewrite forallb_isfinite_map, finite_values_map, (norm_fit_nonempty Hne).
    reflexivity.
  - intros ->. unfold FloatSeries.norm_fit. simpl. rewrite norm_fit_empty. reflexivity.
  - unfold FloatSeries.norm_fit. split.
    + intros H. apply not_all_finite in H. rewrite H. reflexivity.
    + intros H. apply not_all_finite.
      destruct (forallb isfinite data); [discriminate | reflexivity].
  - unfold FloatSeries.norm_fit. intros e H.
    destruct (forallb isfinite data); [discriminate |]. injection H as <-. reflexivity.
  - intros I returns stock_ticker column Hg Hd.
    unfold FloatSeries.plot_normal_distribution. rewrite Hg. cbn [bind].
    rewrite Hd. reflexivity.
Qed.

(** The theorem on two returns, and on a series that holds minus
    infinity. *)
Lemma norm_fit_estimates_witness :
  FloatSeries.norm_fit [Fin 0.02; Fin 0.04] =
    Ok (Fin (avg [0.02; 0.04]), Fin (population_sd [0.02; 0.04])) /\
  FloatSeries.norm_fit [Fin 0.02; NInf] = Raise ValueError.
Proof.
  split.
  - apply (proj1 (norm_fit_estimates [Fin 0.02; Fin 0.04]) [0.02; 0.04] eq_refl).
    discriminate.
  - apply (proj1 (proj2 (proj2 (norm_fit_estimates [Fin 0.02; NInf])))).
    exists NInf. split; [simpl; tauto | reflexivity].
Defined.

(** A price of zero gives a return of minus infinity, which [load_data]
    keeps; the fit of that series raises [ValueError]. *)
Lemma zero_price_fit_raises :
  exists returns,
    Builder.load_data (serves table_zero_price) "MAS" "2024-01-01" "2024-03-01" =
      Ok returns /\
    getitem returns "MAS" = Ok [NInf] /\
    FloatSeries.plot_normal_distribution returns "MAS" = Raise ValueError.
Proof.
  eexists. split; [| split].
  - cbv - [Rltb Reqb ln Rdiv IZR]. decide_reals. reflexivity.
  - reflexivity.
  - reflexivity.
Qed.

Lemma empty_fit_returns :
  plot_normal_distribution returns_empty "MAS" = Ok (NaN, NaN) /\
  FloatSeries.plot_normal_distribution float_returns_empty "MAS" = Ok (NaN, NaN).
Proof.
  split.
  - unfold plot_normal_distribution, returns_empty, getitem. simpl.
    rewrite norm_fit_empty. reflexivity.
  - unfold FloatSeries.plot_normal_distribution, float_returns_empty, getitem. simpl.
    unfold FloatSeries.norm_fit. simpl. rewrite norm_fit_empty. reflexivity.
Qed.

(** The fit of three copies of [0.1], evaluated in binary64: the mean is
    not [0.1] and the scale is not zero. *)
Lemma identical_values_binary64 :
  Binary64.norm_fit [Binary64.tenth; Binary64.tenth; Binary64.tenth] =
    Some (Binary64.mean_of_tenths, Binary64.sigma_of_tenths) /\
  PrimFloat.eqb Binary64.mean_of_tenths Binary64.tenth = false /\
  PrimFloat.eqb Binary64.sigma_of_tenths PrimFloat.zero = false.
Proof. split; [| split]; vm_compute; reflexivity. Qed.

(** C8 fails on the code in two places.  Where it promises an error: on
    the return series without observations the fit returns [(NaN, NaN)]
    and raises nothing.  And on identical values: in binary64 the fit of
    three copies of [0.1] has the scale [2^-56], not [0.0], because the
    mean of the three is not [0.1]. *)
Lemma fit_accepts_empty :
  plot_normal_distribution returns_empty "MAS" = Ok (NaN, NaN) /\
  ~ fit_rejects_empty returns_empty "MAS" /\
  FloatSeries.plot_normal_distribution float_returns_empty "MAS" = Ok (NaN, NaN) /\
  Binary64.norm_fit [Binary64.tenth; Binary64.tenth; Binary64.tenth] =
    Some (Binary64.mean_of_tenths, Binary64.sigma_of_tenths) /\
  PrimFloat.eqb Binary64.sigma_of_tenths PrimFloat.zero = false.
Proof.
  destruct empty_fit_returns as [H Hf].
  destruct identical_values_binary64 as (Hb & _ & Hz).
  split; [exact H |]. split; [| split; [exact Hf | split; [exact Hb | exact Hz]]].
  intros Hc. destruct (Hc eq_refl) as [e He]. rewrite H in He. discriminate He.
Qed.

End FitFacts.

(* ================================================================== *)
(** * The two standard deviations of the report *)
(* ================================================================== *)

Module ReportFacts.

Import PyFacts Format FormatFacts Spec Examples Distribution FitFacts.

Open Scope R_scope.

Lemma pandas_std_sample (data : list R) :
  (2 <= length data)%nat -> pandas_std data = Fin (sample_sd data).
Proof.
  intros Hn. unfold pandas_std.
  destruct (Nat.leb (length data) 1) eqn:E; [apply Nat.leb_le in E; lia |].
  unfold fsqrt, sample_sd. fold (avg data). fold (sum_sq_dev data).
  change (INR 1) with 1.
  rewrite Rltb_false; [reflexivity |].
  apply Rle_not_lt. apply Rmult_le_pos; [apply sum_sq_dev_nonneg |].
  left. apply Rinv_0_lt_compat.
  assert (H2 : INR 2 <= INR (length data)) by (apply le_INR; exact Hn).
  simpl in H2. lra.
Qed.

Lemma population_below_sample (data : list R) :
  (2 <= length data)%nat -> non_constant data ->
  population_sd data < sample_sd data.
Proof.
  intros Hn Hc. unfold population_sd, sample_sd.
  pose proof (sum_sq_dev_pos Hc) as Hss.
  assert (H2 : INR 2 <= INR (length data)) by (apply le_INR; exact Hn).
  simpl in H2.
  assert (Hinv : / INR (length data) < / (INR (length data) - 1)).
  { apply Rinv_lt_contravar; [apply Rmult_lt_0_compat |]; lra. }
  assert (Hpos : 0 < / INR (length data)) by (apply Rinv_0_lt_compat; lra).
  apply sqrt_lt_1.
  - apply Rmult_le_pos; lra.
  - apply Rmult_le_pos; lra.
  - unfold Rdiv. apply Rmult_lt_compat_l; assumption.
Qed.

Lemma printed_values (stock_returns : list R) :
  (2 <= length stock_returns)%nat ->
  Report.printed_sigma stock_returns = fmt4 (Fin (population_sd stock_returns)) /\
  Report.printed_std_dev stock_returns = fmt4 (Fin (sample_sd stock_returns)).
Proof.
  intros Hn. unfold Report.printed_sigma, Report.printed_std_dev.
  rewrite norm_fit_nonempty by (destruct stock_returns; [simpl in Hn; lia | discriminate]).
  rewrite (pandas_std_sample _ Hn).
  split; reflexivity.
Qed.

(** C10, as the code has it: for a series with at least two observations
    that is not constant, the normal-distribution section formats the
    population standard deviation (divisor [n]) and the CDF section formats
    the sample standard deviation (divisor [n - 1]) of the same series, and
    the second number is strictly larger than the first. *)
Theorem report_deviation_conventions (stock_returns : list R) :
  (2 <= length stock_returns)%nat ->
  non_constant stock_returns ->
  Report.printed_sigma stock_returns = fmt4 (Fin (population_sd stock_returns)) /\
  Report.printed_std_dev stock_returns = fmt4 (Fin (sample_sd stock_returns)) /\
  population_sd stock_returns < sample_sd stock_returns.
Proof.
  intros Hn Hc. destruct (printed_values _ Hn) as [Hp Hs].
  split; [exact Hp |]. split; [exact Hs |].
  apply population_below_sample; assumption.
Qed.

Lemma small_returns_non_constant : non_constant small_returns.
Proof.
  exists 0, 0.00001. unfold small_returns. simpl. split; [tauto |]. split; [tauto | lra].
Qed.

(** The theorem on the two small returns. *)
Lemma report_deviation_conventions_witness :
  population_sd small_returns < sample_sd small_returns.
Proof.
  apply (@report_deviation_conventions small_returns).
  - simpl. lia.
  - exact small_returns_non_constant.
Defined.

(** The text of a root so small that it rounds to zero. *)
Lemma fmt4_small_sqrt (v : R) :
  0 <= v < 1 / 400000000 -> fmt4 (Fin (sqrt v)) = "0.0000".
Proof.
  intros [H0 H1].
  assert (Hs : sqrt v < 1 / 20000).
  { replace (1 / 20000) with (sqrt ((1 / 20000) * (1 / 20000)))
      by (apply sqrt_square; lra).
    apply sqrt_lt_1; lra. }
  pose proof (sqrt_pos v) as Hp.
  rewrite (@fmt4_nonneg (sqrt v) 0) by lra. reflexivity.
Qed.

(** C10 fails on the code as a statement about the printed text: the two
    returns 0 and 0.00001 are not constant, and both sections print the
    standard deviation as "0.0000". *)
Lemma printed_deviations_coincide :
  (2 <= length small_returns)%nat /\
  non_constant small_returns /\
  Report.printed_sigma small_returns = "0.0000" /\
  Report.printed_std_dev small_returns = "0.0000" /\
  ~ printed_deviations_differ small_returns.
Proof.
  assert (Hn : (2 <= length small_returns)%nat) by (simpl; lia).
  pose proof small_returns_non_constant as Hc.
  destruct (printed_values _ Hn) as [Hp Hs].
  assert (Hp' : Report.printed_sigma small_returns = "0.0000").
  { rewrite Hp. apply fmt4_small_sqrt.
    unfold sum_sq_dev, avg, small_returns. simpl. lra. }
  assert (Hs' : Report.printed_std_dev small_returns = "0.0000").
  { rewrite Hs. apply fmt4_small_sqrt.
    unfold sum_sq_dev, avg, small_returns. simpl. lra. }
  repeat split; try assumption.
  unfold printed_deviations_differ. rewrite Hp', Hs'. intros H. apply H. reflexivity.
Qed.

End ReportFacts.

(* ================================================================== *)
(** * The return series builder *)
(* ================================================================== *)

Module BuilderFacts.

Import PyFacts Spec Examples Builder.

Open Scope Z_scope.

(** ** Months *)

Lemma month_range_In (lo hi m : Z) : In m (month_range lo hi) <-> lo <= m <= hi.
Proof.
  unfold month_range. rewrite in_map_iff. split.
  - intros (k & <- & Hk). apply in_seq in Hk. lia.
  - intros H. exists (Z.to_nat (m - lo)). split; [lia |]. apply in_seq. lia.
Qed.

Lemma Zmin_list_le (l : list Z) (z : Z) :
  Zmin_list z l <= z /\ forall x, In x l -> Zmin_list z l <= x.
Proof.
  unfold Zmin_list. revert z. induction l as [| y tl IH]; intros z; simpl.
  - split; [lia | tauto].
  - destruct (IH (Z.min z y)) as [H1 H2]. split; [lia |].
    intros x [<- | Hx]; [lia | apply H2; exact Hx].
Qed.

Lemma Zmax_list_ge (l : list Z) (z : Z) :
  z <= Zmax_list z l /\ forall x, In x l -> x <= Zmax_list z l.
Proof.
  unfold Zmax_list. revert z. induction l as [| y tl IH]; intros z; simpl.
  - split; [lia | tauto].
  - destruct (IH (Z.max z y)) as [H1 H2]. split; [lia |].
    intros x [<- | Hx]; [lia | apply H2; exact Hx].
Qed.

Lemma months_in_range (m0 : Z) (ms : list Z) (x : Z) :
  In x (m0 :: ms) -> Zmin_list m0 ms <= x <= Zmax_list m0 ms.
Proof.
  destruct (Zmin_list_le ms m0) as [H1 H2], (Zmax_list_ge ms m0) as [H3 H4].
  intros [<- | Hx]; [lia |]. split; [apply H2 | apply H4]; exact Hx.
Qed.

(** ** Missing values *)

Lemma has_na_false (r : Row float) :
  has_na r = false ->
  isnan (stock r) = false /\ isnan (SP500 r) = false /\
  isnan (VW r) = false /\ isnan (TYX r) = false.
Proof.
  unfold has_na, row_cells. simpl. intros H.
  repeat (apply orb_false_elim in H; destruct H as [? H]). tauto.
Qed.

Lemma last_valid_snoc (l : list float) (v : float) :
  last_valid (l ++ [v]) = if isnan v then last_valid l else v.
Proof. unfold last_valid. rewrite fold_left_app. reflexivity. Qed.

(** On rows without missing values, the last valid value of a column is
    the value of the last row. *)
Lemma last_valid_complete (g : Row float -> float) (l : list (Row float)) :
  (forall r, In r l -> isnan (g r) = false) ->
  last_valid (map g l) = match rev l with [] => NaN | p :: _ => g p end.
Proof.
  intros H. destruct l as [| a tl] using rev_ind; [reflexivity |].
  rewrite map_app, rev_app_distr. simpl. rewrite last_valid_snoc.
  rewrite H by (apply in_or_app; right; left; reflexivity). reflexivity.
Qed.

Lemma in_month_In (rows : list (date * Row float)) (m : Z) (r : Row float) :
  In r (in_month rows m) -> exists d, In (d, r) rows /\ month_index d = m.
Proof.
  unfold in_month. rewrite in_map_iff. intros ([d r'] & <- & H).
  apply filter_In in H. destruct H as [H1 H2]. simpl in *.
  exists d. split; [exact H1 | apply Z.eqb_eq; exact H2].
Qed.

(** The monthly aggregate of complete rows is the last row of the month. *)
Lemma bin_last_complete (rows : list (date * Row float)) (m : Z) :
  (forall d r, In (d, r) rows -> has_na r = false) ->
  bin_last rows m = match rev (in_month rows m) with [] => nan_row | p :: _ => p end.
Proof.
  intros H. unfold bin_last.
  assert (Hc : forall r, In r (in_month rows m) -> has_na r = false).
  { intros r Hr. destruct (in_month_In _ _ _ Hr) as (d & Hd & _). eapply H, Hd. }
  rewrite !last_valid_complete
    by (intros r Hr; apply Hc, has_na_false in Hr; tauto).
  destruct (rev (in_month rows m)) as [| [a b c d] tl]; reflexivity.
Qed.

Lemma filter_complete (table : list (date * Row float)) (d : date) (r : Row float) :
  In (d, r) (filter complete table) -> has_na r = false.
Proof.
  intros H. apply filter_In in H. destruct H as [_ H].
  unfold complete in H. simpl in H. destruct (has_na r); [discriminate | reflexivity].
Qed.

Lemma bin_last_close (table : list (date * Row float)) (m : Z) :
  bin_last (filter complete table) m =
  match month_close table m with Some p => p | None => nan_row end.
Proof.
  rewrite bin_last_complete by apply filter_complete.
  unfold month_close. destruct (rev (in_month (filter complete table) m)); reflexivity.
Qed.

Lemma month_close_complete (table : list (date * Row float)) (m : Z) (p : Row float) :
  month_close table m = Some p -> has_na p = false.
Proof.
  unfold month_close. intros H.
  destruct (rev (in_month (filter complete table) m)) as [| q tl] eqn:E; [discriminate |].
  injection H as ->.
  assert (Hin : In p (in_month (filter complete table) m)).
  { apply in_rev. rewrite E. left. reflexivity. }
  destruct (in_month_In _ _ _ Hin) as (d & Hd & _). eapply filter_complete, Hd.
Qed.

Lemma month_close_month (table : list (date * Row float)) (m : Z) (p : Row float) :
  month_close table m = Some p -> In m (months_of (filter complete table)).
Proof.
  unfold month_close. intros H.
  destruct (rev (in_month (filter complete table) m)) as [| q tl] eqn:E; [discriminate |].
  injection H as ->.
  assert (Hin : In p (in_month (filter complete table) m)).
  { apply in_rev. rewrite E. left. reflexivity. }
  destruct (in_month_In _ _ _ Hin) as (d & Hd & Hm).
  unfold months_of. apply in_map_iff. exists (d, p). split; [exact Hm | exact Hd].
Qed.

(** ** Shifting and dividing *)

Section Monthly.

Variable B : Z -> Row float.
Variable lo : Z.

Local Abbreviation idx := (fun k : nat => lo + Z.of_nat k).
Local Abbreviation g := (fun k : nat => (lo + Z.of_nat k, B (lo + Z.of_nat k))).

Lemma shift_div (n s : nat) (prev : Row float) :
  map (fun p : (Z * Row float) * (Z * Row float) =>
         (fst (fst p), row_map2 fdiv (snd (fst p)) (snd (snd p))))
      (combine (map g (seq s n)) (shift_from prev (map g (seq s n)))) =
  map (fun k => (idx k,
                 row_map2 fdiv (B (idx k)) (if Nat.eqb k s then prev else B (idx k - 1))))
      (seq s n).
Proof.
  revert s prev. induction n as [| n IH]; intros s prev; [reflexivity |].
  cbn [seq map shift_from combine fst snd]. rewrite Nat.eqb_refl. f_equal.
  rewrite IH. apply map_ext_in. intros k Hk. apply in_seq in Hk.
  f_equal. f_equal.
  destruct (Nat.eqb k (S s)) eqn:E1.
  - apply Nat.eqb_eq in E1. subst k.
    replace (Nat.eqb (S s) s) with false by (symmetry; apply Nat.eqb_neq; lia).
    f_equal. lia.
  - replace (Nat.eqb k s) with false by (symmetry; apply Nat.eqb_neq; lia).
    reflexivity.
Qed.

End Monthly.

(** The rows of [load_data] before the last [dropna], month by month. *)
Lemma returns_of_months (tk : string) (rows : list (date * Row float)) (m0 : Z) (ms : list Z) :
  months_of rows = m0 :: ms ->
  let lo := Zmin_list m0 ms in
  let monthly_prices := resample_last (mkFrame tk rows) in
  body (np_log (frame_div monthly_prices (shift1 monthly_prices))) =
  map (fun k : nat =>
         (lo + Z.of_nat k,
          log_return (bin_last rows (lo + Z.of_nat k))
            (if Nat.eqb k 0 then nan_row else bin_last rows (lo + Z.of_nat k - 1))))
      (seq 0 (Z.to_nat (Zmax_list m0 ms - lo + 1))).
Proof.
  intros Hm lo monthly_prices.
  unfold monthly_prices, np_log, frame_div, shift1, resample_last. cbn [body ticker_of].
  rewrite Hm. fold lo.
  assert (E : map (fun m => (m, bin_last rows m)) (month_range lo (Zmax_list m0 ms)) =
              map (fun k : nat => (lo + Z.of_nat k, bin_last rows (lo + Z.of_nat k)))
                  (seq 0 (Z.to_nat (Zmax_list m0 ms - lo + 1))))
    by (unfold month_range; apply map_map).
  rewrite E. rewrite (shift_div (bin_last rows) lo). rewrite map_map. reflexivity.
Qed.

Lemma log_return_nan_r (p : Row float) : has_na (log_return p nan_row) = true.
Proof. destruct p as [[] ? ? ?]; reflexivity. Qed.

Lemma log_return_nan_l (q : Row float) : has_na (log_return nan_row q) = true.
Proof. reflexivity. Qed.

Lemma filter_map_fst_sorted {A : Type} (f : A -> Z) (P : A -> bool) (l : list A) :
  StronglySorted Z.lt (map f l) -> StronglySorted Z.lt (map f (filter P l)).
Proof.
  induction l as [| a tl IH]; simpl; intros H; [constructor |].
  inversion H as [| ? ? Htl Hall]; subst.
  destruct (P a); simpl; [| apply IH; exact Htl].
  constructor; [apply IH; exact Htl |].
  rewrite Forall_forall in *. intros x Hx. apply Hall.
  apply in_map_iff in Hx. destruct Hx as (y & <- & Hy).
  apply filter_In in Hy. apply in_map. tauto.
Qed.

Lemma seq_months_sorted (lo : Z) (n s : nat) :
  StronglySorted Z.lt (map (fun k : nat => lo + Z.of_nat k) (seq s n)).
Proof.
  revert s. induction n as [| n IH]; intros s; simpl; constructor; [apply IH |].
  apply Forall_forall. intros x Hx. apply in_map_iff in Hx.
  destruct Hx as (k & <- & Hk). apply in_seq in Hk. lia.
Qed.

(** ** The rows of the return series *)

Lemma build_rows (tk : string) (table : list (date * Row float)) (m : Z) (r : Row float) :
  In (m, r) (body (build tk (filter complete table))) <->
  exists p q,
    month_close table m = Some p /\ month_close table (m - 1) = Some q /\
    r = log_return p q /\ has_na r = false.
Proof.
  unfold build. set (rows := filter complete table).
  destruct (months_of rows) as [| m0 ms] eqn:Hm.
  - split.
    + unfold resample_last. cbn [body ticker_of]. rewrite Hm. simpl. tauto.
    + intros (p & q & Hp & _). apply month_close_month in Hp.
      fold rows in Hp. rewrite Hm in Hp. destruct Hp.
  - unfold dropna at 1. cbn [body]. rewrite (returns_of_months tk rows Hm).
    rewrite filter_In, in_map_iff. cbn [snd]. split.
    + intros [(k & Hk & Hin) Hna].
      injection Hk as <- <-.
      apply negb_true_iff in Hna.
      destruct (Nat.eqb k 0); [rewrite log_return_nan_r in Hna; discriminate |].
      unfold rows in Hna |- *. rewrite !bin_last_close in Hna |- *.
      destruct (month_close table (Zmin_list m0 ms + Z.of_nat k)) as [p |];
        [| rewrite log_return_nan_l in Hna; discriminate].
      destruct (month_close table (Zmin_list m0 ms + Z.of_nat k - 1)) as [q |];
        [| rewrite log_return_nan_r in Hna; discriminate].
      exists p, q. tauto.
    + intros (p & q & Hp & Hq & -> & Hna).
      pose proof (@months_in_range m0 ms m) as Hr.
      pose proof (@months_in_range m0 ms (m - 1)) as Hr'.
      rewrite <- Hm in Hr, Hr'.
      specialize (Hr (month_close_month _ _ Hp)).
      specialize (Hr' (month_close_month _ _ Hq)).
      split; [| rewrite Hna; reflexivity].
      exists (Z.to_nat (m - Zmin_list m0 ms)). split; [| apply in_seq; lia].
      replace (Zmin_list m0 ms + Z.of_nat (Z.to_nat (m - Zmin_list m0 ms))) with m by lia.
      replace (Nat.eqb (Z.to_nat (m - Zmin_list m0 ms)) 0) with false
        by (symmetry; apply Nat.eqb_neq; lia).
      unfold rows. rewrite !bin_last_close, Hp, Hq. reflexivity.
Qed.

Lemma build_sorted (tk : string) (rows : list (date * Row float)) :
  StronglySorted Z.lt (map fst (body (build tk rows))).
Proof.
  unfold build. destruct (months_of rows) as [| m0 ms] eqn:Hm.
  - unfold resample_last. cbn [body ticker_of]. rewrite Hm. constructor.
  - unfold dropna at 1. cbn [body]. rewrite (returns_of_months tk rows Hm).
    apply filter_map_fst_sorted. rewrite map_map. cbn [fst].
    apply seq_months_sorted.
Qed.

(** C2, as the code has it: [load_data] first drops every daily row with
    a missing value, and then does the three steps of the specification on
    what is left.  So the series has a row for month [m] exactly when both
    [m] and the month before it have a complete daily row; the row is then
    the log return [ln (P_m / P_(m-1))] of the last complete rows of the
    two months, and it is kept only if none of its four values is missing.
    The months of the series are strictly increasing. *)
Theorem load_data_steps
  (download : list string -> string -> string -> outcome (list (date * Row float)))
  (stock_ticker start end_ : string) (table : list (date * Row float)) :
  download [stock_ticker; "^GSPC"; "^W5000"; "^TYX"] start end_ = Ok table ->
  exists returns,
    load_data download stock_ticker start end_ = Ok returns /\
    returns = build stock_ticker (filter complete table) /\
    (forall m r,
        In (m, r) (body returns) <->
        exists p q,
          month_close table m = Some p /\ month_close table (m - 1) = Some q /\
          r = log_return p q /\ has_na r = false) /\
    StronglySorted Z.lt (map fst (body returns)).
Proof.
  intros Hd. exists (build stock_ticker (filter complete table)).
  split; [unfold load_data; rewrite Hd; reflexivity |].
  split; [reflexivity |].
  split; [intros m r; apply build_rows | apply build_sorted].
Qed.

Open Scope R_scope.

Ltac run_load := cbv - [Rltb Reqb ln Rdiv IZR]; decide_reals.

(** The theorem on the table with a gap at the end of January: the
    January close is the row of the 30th. *)
Lemma load_data_steps_witness :
  exists returns,
    load_data (serves table_late_gap) "MAS" "2024-01-01" "2024-03-01" = Ok returns /\
    In (24289%Z, quote (ln (2 / 1))) (body returns).
Proof.
  destruct (@load_data_steps (serves table_late_gap) "MAS" "2024-01-01" "2024-03-01"
              table_late_gap eq_refl) as (returns & Hl & _ & Hrows & _).
  exists returns. split; [exact Hl |].
  apply Hrows. exists (quote 2), (quote 1).
  split; [reflexivity |]. split; [reflexivity |].
  split; run_load; reflexivity.
Defined.

Lemma late_gap_run :
  load_data (serves table_late_gap) "MAS" "2024-01-01" "2024-03-01" =
  Ok (mkFrame "MAS" [(24289%Z, quote (ln (2 / 1)))]).
Proof. run_load. reflexivity. Qed.

Lemma late_gap_build :
  build "MAS" table_late_gap =
  mkFrame "MAS"
    [(24289%Z, mkRow (Fin (ln (2 / 3))) (Fin (ln (2 / 3))) (Fin (ln (2 / 3)))
                     (Fin (ln (2 / 1))))].
Proof. run_load. reflexivity. Qed.

(** C2 fails on the code: when the last trading day of January lacks one
    quote, the three steps of the specification take the January close of
    the stock from that day (3), while [load_data] has dropped the day and
    takes it from the day before (1); the February returns differ. *)
Lemma load_data_not_three_steps :
  load_data (serves table_late_gap) "MAS" "2024-01-01" "2024-03-01" <>
    Ok (build "MAS" table_late_gap) /\
  ~ builds_in_three_steps (serves table_late_gap) "MAS" "2024-01-01" "2024-03-01".
Proof.
  assert (H : load_data (serves table_late_gap) "MAS" "2024-01-01" "2024-03-01" <>
              Ok (build "MAS" table_late_gap)).
  { rewrite late_gap_run, late_gap_build. intros E. injection E as E.
    apply ln_inv in E; lra. }
  split; [exact H |].
  intros Hc. apply H. apply Hc. reflexivity.
Qed.

End BuilderFacts.

Module LoadingFacts.

Import PyFacts Spec Examples Builder BuilderFacts.

Open Scope R_scope.

Lemma load_data_Ok
  (download : list string -> string -> string -> outcome (list (date * Row float)))
  (stock_ticker start end_ : string) (table : list (date * Row float)) :
  download [stock_ticker; "^GSPC"; "^W5000"; "^TYX"] start end_ = Ok table ->
  load_data download stock_ticker start end_ =
    Ok (build stock_ticker (filter complete table)).
Proof. intros H. unfold load_data. rewrite H. reflexivity. Qed.

Lemma load_data_Raise
  (download : list string -> string -> string -> outcome (list (date * Row float)))
  (stock_ticker start end_ : string) (e : exn) :
  download [stock_ticker; "^GSPC"; "^W5000"; "^TYX"] start end_ = Raise e ->
  load_data download stock_ticker start end_ = Raise e.
Proof. intros H. unfold load_data. rewrite H. reflexivity. Qed.

Lemma index_last_nonempty {I X : Type} (f : Frame I X) :
  body f <> [] -> exists i, App.index_last f = Ok i.
Proof.
  intros H. unfold App.index_last.
  destruct (rev (body f)) as [| r tl] eqn:E; [| eauto].
  exfalso. apply H. rewrite <- (rev_involutive (body f)), E. reflexivity.
Qed.

(** C1, as the code has it: [load_data] counts no rows and has no error of
    its own.  Whenever the download returns a table, [load_data] returns
    the series built from it, however few rows that series has; it fails
    only when the download itself raises, with the exception of the
    download.  The caller stops before the regressions when [load_data]
    raises, and also (on an index error) when the series has no row; with
    one row or more it goes on to the regressions. *)
Theorem load_data_no_row_check
  (download : list string -> string -> string -> outcome (list (date * Row float)))
  (stock_ticker start end_ : string)
  (A : Type) (regress : Frame Z float -> outcome A) :
  (forall table,
      download [stock_ticker; "^GSPC"; "^W5000"; "^TYX"] start end_ = Ok table ->
      exists returns, load_data download stock_ticker start end_ = Ok returns) /\
  (forall e,
      download [stock_ticker; "^GSPC"; "^W5000"; "^TYX"] start end_ = Raise e ->
      load_data download stock_ticker start end_ = Raise e /\
      App.main download regress stock_ticker start end_ = Raise e) /\
  (forall returns,
      load_data download stock_ticker start end_ = Ok returns ->
      (body returns = [] ->
       App.main download regress stock_ticker start end_ = Raise IndexError) /\
      (body returns <> [] ->
       App.main download regress stock_ticker start end_ = regress returns)).
Proof.
  split; [| split].
  - intros table H. rewrite (load_data_Ok _ _ _ _ H). eauto.
  - intros e H. pose proof (load_data_Raise _ _ _ _ H) as Hl.
    split; [exact Hl |]. unfold App.main. rewrite Hl. reflexivity.
  - intros returns Hl. unfold App.main. rewrite Hl. cbn [bind]. split.
    + intros Hb. unfold App.index_first. rewrite Hb. reflexivity.
    + intros Hb. destruct (index_last_nonempty returns Hb) as [i Hi].
      unfold App.index_first. destruct (body returns) as [| r tl] eqn:E; [contradiction |].
      cbn [bind]. rewrite Hi. reflexivity.
Qed.

Lemma two_months_run :
  load_data (serves table_two_months) "MAS" "2024-01-01" "2024-03-01" =
  Ok (mkFrame "MAS" [(24289%Z, quote (ln (2 / 1)))]).
Proof. run_load. reflexivity. Qed.

(** The theorem on an unreachable data source, and on two months of
    prices. *)
Lemma load_data_no_row_check_witness :
  load_data unreachable "MAS" "2024-01-01" "2024-03-01" = Raise ConnectionError /\
  App.main (serves table_two_months) (fun returns => Ok (length (body returns)))
    "MAS" "2024-01-01" "2024-03-01" = Ok 1%nat.
Proof.
  split.
  - apply (proj1 (proj2 (@load_data_no_row_check unreachable "MAS" "2024-01-01"
                           "2024-03-01" nat (fun _ => Ok 0%nat))) ConnectionError).
    reflexivity.
  - rewrite (proj2 (proj2 (proj2 (@load_data_no_row_check (serves table_two_months)
               "MAS" "2024-01-01" "2024-03-01" nat
               (fun returns => Ok (length (body returns))))) _ two_months_run)).
    + reflexivity.
    + discriminate.
Defined.

(** C1 fails on the code: from two months of prices [load_data] returns a
    series of a single row, without an error, and the caller goes on to the
    regressions with it. *)
Lemma short_series_accepted :
  (exists returns,
      load_data (serves table_two_months) "MAS" "2024-01-01" "2024-03-01" = Ok returns /\
      length (body returns) = 1%nat /\
      forall (A : Type) (regress : Frame Z float -> outcome A),
        App.main (serves table_two_months) regress "MAS" "2024-01-01" "2024-03-01" =
        regress returns) /\
  ~ rejects_short_series (serves table_two_months) "MAS" "2024-01-01" "2024-03-01".
Proof.
  split.
  - eexists. split; [apply two_months_run |]. split; [reflexivity |].
    intros A regress. unfold App.main. rewrite two_months_run. reflexivity.
  - intros Hc. specialize (Hc _ two_months_run). simpl in Hc. lia.
Qed.

End LoadingFacts.

(* ================================================================== *)
(** * Further properties of the return series *)
(* ================================================================== *)

Module SeriesFacts.

Import PyFacts Spec Examples Builder BuilderFacts LoadingFacts SeriesOps MoreExamples.

Open Scope Z_scope.

Lemma month_close_none (table : list (date * Row float)) (m : Z) :
  (forall d r, In (d, r) table -> month_index d = m -> has_na r = true) ->
  month_close table m = None.
Proof.
  intros H. destruct (month_close table m) as [p |] eqn:E; [| reflexivity].
  exfalso. unfold month_close in E.
  destruct (rev (in_month (filter complete table) m)) as [| q tl] eqn:Er; [discriminate |].
  assert (Hin : In q (in_month (filter complete table) m)).
  { apply in_rev. rewrite Er. left. reflexivity. }
  destruct (in_month_In _ _ _ Hin) as (d & Hd & Hm).
  pose proof (filter_complete _ _ _ Hd) as Hc.
  apply filter_In in Hd. destruct Hd as [Hd _].
  rewrite (H d q Hd Hm) in Hc. discriminate.
Qed.

Lemma load_data_body
  (download : list string -> string -> string -> outcome (list (date * Row float)))
  (stock_ticker start end_ : string) (table : list (date * Row float))
  (returns : Frame Z float) :
  download [stock_ticker; "^GSPC"; "^W5000"; "^TYX"] start end_ = Ok table ->
  load_data download stock_ticker start end_ = Ok returns ->
  returns = build stock_ticker (filter complete table).
Proof.
  intros Hd Hl. rewrite (load_data_Ok _ _ _ _ Hd) in Hl. injection Hl as <-. reflexivity.
Qed.

(** X1: a calendar month in which no daily row is complete costs two
    observations: the series has no row for that month and none for the
    month after it. *)
Theorem missing_month_drops_two
  (download : list string -> string -> string -> outcome (list (date * Row float)))
  (stock_ticker start end_ : string) (table : list (date * Row float))
  (returns : Frame Z float) (m : Z) :
  download [stock_ticker; "^GSPC"; "^W5000"; "^TYX"] start end_ = Ok table ->
  load_data download stock_ticker start end_ = Ok returns ->
  (forall d r, In (d, r) table -> month_index d = m -> has_na r = true) ->
  forall r, ~ In (m, r) (body returns) /\ ~ In (m + 1, r) (body returns).
Proof.
  intros Hd Hl Hm r. rewrite (load_data_body _ _ _ _ Hd Hl).
  pose proof (@month_close_none table m Hm) as Hn.
  split; intros Hin; apply build_rows in Hin; destruct Hin as (p & q & Hp & Hq & _).
  - rewrite Hn in Hp. discriminate.
  - replace (m + 1 - 1) with m in Hq by lia. rewrite Hn in Hq. discriminate.
Qed.

Lemma missing_month_drops_two_witness :
  exists returns,
    load_data (serves table_missing_month) "MAS" "2024-01-01" "2024-04-01" = Ok returns /\
    ~ In (24290, quote (ln (2 / 1))) (body returns).
Proof.
  eexists. split; [reflexivity |].
  apply (@missing_month_drops_two (serves table_missing_month) "MAS" "2024-01-01"
           "2024-04-01" table_missing_month _ 24289 eq_refl eq_refl).
  intros d r Hin Hm. simpl in Hin.
  destruct Hin as [H | [H | []]]; injection H as <- <-; discriminate Hm.
Defined.

Lemma load_data_inv
  (download : list string -> string -> string -> outcome (list (date * Row float)))
  (stock_ticker start end_ : string) (returns : Frame Z float) :
  load_data download stock_ticker start end_ = Ok returns ->
  exists table,
    download [stock_ticker; "^GSPC"; "^W5000"; "^TYX"] start end_ = Ok table /\
    returns = build stock_ticker (filter complete table).
Proof.
  intros Hl.
  destruct (download [stock_ticker; "^GSPC"; "^W5000"; "^TYX"] start end_) as [table | e] eqn:E.
  - exists table. split; [reflexivity |]. exact (load_data_body _ _ _ _ E Hl).
  - rewrite (load_data_Raise _ _ _ _ E) in Hl. discriminate.
Qed.

Lemma accessor_cases {A : Type} (ticker name : string) (g : Row A -> A) :
  accessor ticker name = Some g ->
  g = @stock A \/ g = @SP500 A \/ g = @VW A \/ g = @TYX A.
Proof.
  unfold accessor.
  repeat match goal with
         | |- context [if ?b then _ else _] => destruct b
         end; intros H; try discriminate; injection H as <-; tauto.
Qed.

Lemma series_dropna_id (l : list float) :
  Forall (fun v => isnan v = false) l -> series_dropna l = l.
Proof.
  unfold series_dropna. induction 1 as [| v l Hv Hl IH]; [reflexivity |].
  simpl. rewrite Hv. simpl. f_equal. exact IH.
Qed.

(** X2: the series that [load_data] returns has no missing value in any
    column, so the [dropna()] that the plotting and report functions apply
    to a column of it changes nothing. *)
Theorem dropna_after_load_is_identity
  (download : list string -> string -> string -> outcome (list (date * Row float)))
  (stock_ticker start end_ : string) (returns : Frame Z float)
  (name : string) (col : list float) :
  load_data download stock_ticker start end_ = Ok returns ->
  getitem returns name = Ok col ->
  series_dropna col = col /\ Forall (fun v => isnan v = false) col.
Proof.
  intros Hl Hg. destruct (load_data_inv _ _ _ _ Hl) as (table & _ & ->).
  unfold getitem in Hg.
  destruct (accessor (ticker_of (build stock_ticker (filter complete table))) name)
    as [g |] eqn:Ea; [| discriminate].
  injection Hg as <-.
  assert (Hall : Forall (fun v => isnan v = false)
                   (map (fun r : Z * Row float => g (snd r))
                        (body (build stock_ticker (filter complete table))))).
  { apply Forall_forall. intros v Hv. apply in_map_iff in Hv.
    destruct Hv as ([m r] & <- & Hin). apply build_rows in Hin.
    destruct Hin as (p & q & _ & _ & _ & Hna). apply has_na_false in Hna.
    cbn [snd]. destruct (accessor_cases _ _ Ea) as [-> | [-> | [-> | ->]]]; tauto. }
  split; [apply series_dropna_id; exact Hall | exact Hall].
Qed.

Lemma dropna_after_load_is_identity_witness :
  series_dropna [Fin (ln (2 / 1))] = [Fin (ln (2 / 1))].
Proof.
  apply (@dropna_after_load_is_identity (serves table_two_months) "MAS" "2024-01-01"
           "2024-03-01" _ "SP500" [Fin (ln (2 / 1))] two_months_run).
  reflexivity.
Defined.

Lemma sorted_range_length (l : list Z) (lo hi : Z) :
  StronglySorted Z.lt l -> (forall x, In x l -> lo < x <= hi) ->
  (length l <= Z.to_nat (hi - lo))%nat.
Proof.
  revert lo. induction l as [| x tl IH]; intros lo Hs Hr; simpl; [lia |].
  inversion Hs as [| ? ? Htl Hall]; subst. rewrite Forall_forall in Hall.
  assert (Hx : lo < x <= hi) by (apply Hr; left; reflexivity).
  assert (Ht : (length tl <= Z.to_nat (hi - x))%nat).
  { apply IH; [exact Htl |]. intros y Hy. split; [apply Hall; exact Hy |].
    apply Hr. right. exact Hy. }
  lia.
Qed.

Lemma span_rows (tk : string) (table : list (date * Row float)) (lo hi : Z) :
  (forall d r, In (d, r) table -> has_na r = false -> lo <= month_index d <= hi) ->
  (forall m r, In (m, r) (body (build tk (filter complete table))) -> lo < m <= hi) /\
  (length (body (build tk (filter complete table))) <= Z.to_nat (hi - lo))%nat.
Proof.
  intros Hspan.
  assert (Hm : forall m p, month_close table m = Some p -> lo <= m <= hi).
  { intros m p Hp. apply month_close_month in Hp. unfold months_of in Hp.
    apply in_map_iff in Hp. destruct Hp as ([d r] & <- & Hin).
    pose proof (filter_complete _ _ _ Hin) as Hc.
    apply filter_In in Hin. destruct Hin as [Hin _]. apply (Hspan d r Hin Hc). }
  assert (Hrows : forall m r,
             In (m, r) (body (build tk (filter complete table))) -> lo < m <= hi).
  { intros m r Hin. apply build_rows in Hin. destruct Hin as (p & q & Hp & Hq & _).
    apply Hm in Hp. apply Hm in Hq. lia. }
  split; [exact Hrows |].
  rewrite <- (length_map fst). apply sorted_range_length; [apply build_sorted |].
  intros x Hx. apply in_map_iff in Hx. destruct Hx as ([m r] & <- & Hin).
  exact (Hrows m r Hin).
Qed.

(** X3: when the complete daily rows of the table lie in the months from
    [lo] to [hi], every row of the series is for a month after [lo] and not
    after [hi], and the series has at most [hi - lo] rows: [n] months of
    prices give at most [n - 1] returns. *)
Theorem returns_within_span
  (download : list string -> string -> string -> outcome (list (date * Row float)))
  (stock_ticker start end_ : string) (table : list (date * Row float))
  (returns : Frame Z float) (lo hi : Z) :
  download [stock_ticker; "^GSPC"; "^W5000"; "^TYX"] start end_ = Ok table ->
  load_data download stock_ticker start end_ = Ok returns ->
  (forall d r, In (d, r) table -> has_na r = false -> lo <= month_index d <= hi) ->
  (forall m r, In (m, r) (body returns) -> lo < m <= hi) /\
  (length (body returns) <= Z.to_nat (hi - lo))%nat.
Proof.
  intros Hd Hl Hspan. rewrite (load_data_body _ _ _ _ Hd Hl).
  apply span_rows. exact Hspan.
Qed.

Lemma returns_within_span_witness :
  exists returns,
    load_data (serves table_two_months) "MAS" "2024-01-01" "2024-03-01" = Ok returns /\
    (length (body returns) <= 1)%nat.
Proof.
  eexists. split; [reflexivity |].
  apply (@returns_within_span (serves table_two_months) "MAS" "2024-01-01" "2024-03-01"
           table_two_months _ 24288 24289 eq_refl eq_refl).
  intros d r Hin _. simpl in Hin.
  destruct Hin as [H | [H | []]]; injection H as <- <-; cbv; split; discriminate.
Defined.

(** X4: when all complete daily rows of the table fall in one calendar
    month (or none is complete), the series is empty, and the script stops
    on the index error of [returns.index[0]] before any regression. *)
Theorem single_month_stops_script
  (download : list string -> string -> string -> outcome (list (date * Row float)))
  (stock_ticker start end_ : string) (table : list (date * Row float)) (m : Z)
  (A : Type) (regress : Frame Z float -> outcome A) :
  download [stock_ticker; "^GSPC"; "^W5000"; "^TYX"] start end_ = Ok table ->
  (forall d r, In (d, r) table -> has_na r = false -> month_index d = m) ->
  (exists returns,
      load_data download stock_ticker start end_ = Ok returns /\ body returns = []) /\
  App.main download regress stock_ticker start end_ = Raise IndexError.
Proof.
  intros Hd Hm.
  pose proof (load_data_Ok _ _ _ _ Hd) as Hl.
  assert (Hb : body (build stock_ticker (filter complete table)) = []).
  { destruct (@span_rows stock_ticker table m m) as [_ Hlen].
    - intros d r Hin Hc. rewrite (Hm d r Hin Hc). lia.
    - replace (Z.to_nat (m - m)) with 0%nat in Hlen by lia.
      destruct (body (build stock_ticker (filter complete table))); [reflexivity |].
      simpl in Hlen. lia. }
  split; [eexists; split; [exact Hl | exact Hb] |].
  unfold App.main. rewrite Hl. cbn [bind]. unfold App.index_first. rewrite Hb. reflexivity.
Qed.

Lemma single_month_stops_script_witness :
  App.main (serves [(mkDate 2024 1 31, quote 1)]) (fun returns => Ok (length (body returns)))
    "MAS" "2024-01-01" "2024-02-01" = Raise IndexError.
Proof.
  apply (@single_month_stops_script (serves [(mkDate 2024 1 31, quote 1)]) "MAS"
           "2024-01-01" "2024-02-01" [(mkDate 2024 1 31, quote 1)] 24288 nat _ eq_refl).
  intros d r Hin _. simpl in Hin. destruct Hin as [H | []]. injection H as <- <-. reflexivity.
Defined.

Open Scope R_scope.

Lemma log_ratio (x y : R) :
  0 < x -> 0 < y -> flog (fdiv (Fin x) (Fin y)) = Fin (ln (x / y)).
Proof.
  intros Hx Hy. unfold fdiv, flog.
  rewrite Reqb_false by lra.
  rewrite Rltb_true by (apply Rdiv_lt_0_compat; assumption).
  reflexivity.
Qed.

Lemma log_return_prices (a b c d a' b' c' d' : R) :
  0 < a -> 0 < b -> 0 < c -> 0 < d -> 0 < a' -> 0 < b' -> 0 < c' -> 0 < d' ->
  log_return (prices a b c d) (prices a' b' c' d') =
  prices (ln (a / a')) (ln (b / b')) (ln (c / c')) (ln (d / d')).
Proof.
  intros. unfold log_return, prices, row_map2. cbn [stock SP500 VW TYX].
  rewrite !log_ratio by assumption. reflexivity.
Qed.

Lemma positive_rows (tk : string) (table : list (date * Row float)) (m : Z)
  (a b c d a' b' c' d' : R) :
  month_close table m = Some (prices a b c d) ->
  month_close table (m - 1) = Some (prices a' b' c' d') ->
  0 < a -> 0 < b -> 0 < c -> 0 < d -> 0 < a' -> 0 < b' -> 0 < c' -> 0 < d' ->
  In (m, prices (ln (a / a')) (ln (b / b')) (ln (c / c')) (ln (d / d')))
     (body (build tk (filter complete table))).
Proof.
  intros Hp Hq. intros. apply build_rows.
  exists (prices a b c d), (prices a' b' c' d').
  split; [exact Hp |]. split; [exact Hq |].
  rewrite log_return_prices by assumption. split; reflexivity.
Qed.

(** X5: when a month and the month before it both close on a row of four
    positive prices, the series has the row of that month, and its values
    are the logarithms of the four price ratios: no observation is lost on
    valid prices. *)
Theorem positive_prices_give_returns
  (download : list string -> string -> string -> outcome (list (date * Row float)))
  (stock_ticker start end_ : string) (table : list (date * Row float))
  (returns : Frame Z float) (m : Z) (a b c d a' b' c' d' : R) :
  download [stock_ticker; "^GSPC"; "^W5000"; "^TYX"] start end_ = Ok table ->
  load_data download stock_ticker start end_ = Ok returns ->
  month_close table m = Some (prices a b c d) ->
  month_close table (m - 1) = Some (prices a' b' c' d') ->
  0 < a -> 0 < b -> 0 < c -> 0 < d -> 0 < a' -> 0 < b' -> 0 < c' -> 0 < d' ->
  In (m, prices (ln (a / a')) (ln (b / b')) (ln (c / c')) (ln (d / d'))) (body returns).
Proof.
  intros Hd Hl Hp Hq. intros.
  rewrite (load_data_body _ _ _ _ Hd Hl). apply positive_rows; assumption.
Qed.

Lemma positive_prices_give_returns_witness :
  exists returns,
    load_data (serves table_two_months) "MAS" "2024-01-01" "2024-03-01" = Ok returns /\
    In (24289%Z, prices (ln (2 / 1)) (ln (2 / 1)) (ln (2 / 1)) (ln (2 / 1))) (body returns).
Proof.
  eexists. split; [reflexivity |].
  apply (@positive_prices_give_returns (serves table_two_months) "MAS" "2024-01-01"
           "2024-03-01" table_two_months _ 24289%Z 2 2 2 2 1 1 1 1 eq_refl eq_refl);
    try reflexivity; lra.
Defined.

Lemma ln_ratio (x y : R) : 0 < x -> 0 < y -> ln (x / y) = ln x - ln y.
Proof.
  intros Hx Hy. unfold Rdiv.
  rewrite ln_mult by (try apply Rinv_0_lt_compat; assumption).
  rewrite ln_Rinv by assumption. ring.
Qed.

Lemma Rsum_app (l l' : list R) : Rsum (l ++ l') = Rsum l + Rsum l'.
Proof. induction l as [| x tl IH]; simpl; [ring | rewrite IH; ring]. Qed.

Lemma log_ratios_telescope (P : nat -> R) (n : nat) :
  (forall k, (k <= n)%nat -> 0 < P k) ->
  Rsum (map (fun k => ln (P (S k) / P k)) (seq 0 n)) = ln (P n / P 0%nat).
Proof.
  induction n as [| n IH]; intros Hpos.
  - simpl. unfold Rdiv. rewrite Rinv_r; [symmetry; apply ln_1 |].
    apply Rgt_not_eq. apply Hpos. lia.
  - rewrite seq_S, map_app, Rsum_app. cbn [map Rsum plus].
    rewrite IH by (intros k Hk; apply Hpos; lia).
    rewrite !ln_ratio by (apply Hpos; lia). ring.
Qed.

(** X6: log returns add up over time.  When the months [a], [a + 1], ...,
    [a + n] each close on a row of positive prices, the series has a row
    for each of the [n] months after [a], and the stock returns of these
    rows sum to the logarithm of the ratio of the last stock price to the
    first. *)
Theorem log_returns_telescope
  (download : list string -> string -> string -> outcome (list (date * Row float)))
  (stock_ticker start end_ : string) (table : list (date * Row float))
  (returns : Frame Z float) (a : Z) (n : nat) (P Q U V : nat -> R) :
  download [stock_ticker; "^GSPC"; "^W5000"; "^TYX"] start end_ = Ok table ->
  load_data download stock_ticker start end_ = Ok returns ->
  (forall k, (k <= n)%nat ->
     month_close table (a + Z.of_nat k) = Some (prices (P k) (Q k) (U k) (V k)) /\
     0 < P k /\ 0 < Q k /\ 0 < U k /\ 0 < V k) ->
  let rs := map (fun k => ln (P (S k) / P k)) (seq 0 n) in
  (forall k, (k < n)%nat ->
     exists row, In ((a + Z.of_nat (S k))%Z, row) (body returns) /\
                 stock row = Fin (nth k rs 0)) /\
  Rsum rs = ln (P n / P 0%nat).
Proof.
  intros Hd Hl Hm rs. split.
  - intros k Hk.
    destruct (Hm (S k) ltac:(lia)) as (Hp & ? & ? & ? & ?).
    destruct (Hm k ltac:(lia)) as (Hq & ? & ? & ? & ?).
    eexists. split.
    + rewrite (load_data_body _ _ _ _ Hd Hl).
      apply (@positive_rows stock_ticker table (a + Z.of_nat (S k))%Z
               (P (S k)) (Q (S k)) (U (S k)) (V (S k)) (P k) (Q k) (U k) (V k));
        try assumption.
      replace (a + Z.of_nat (S k) - 1)%Z with (a + Z.of_nat k)%Z by lia. exact Hq.
    + cbn [prices stock]. f_equal. unfold rs.
      rewrite (nth_indep _ 0 ((fun k => ln (P (S k) / P k)) 0%nat))
        by (rewrite length_map, length_seq; exact Hk).
      rewrite (map_nth (fun k => ln (P (S k) / P k))), seq_nth by exact Hk. reflexivity.
  - apply log_ratios_telescope. intros k Hk. apply (Hm k Hk).
Qed.

Lemma log_returns_telescope_witness :
  Rsum [ln (2 / 1); ln (4 / 2)] = ln (4 / 1).
Proof.
  apply (@log_returns_telescope (serves table_three_months) "MAS" "2024-01-01"
           "2024-04-01" table_three_months _ 24288%Z 2%nat
           doubling doubling doubling doubling eq_refl eq_refl).
  intros k Hk.
  destruct k as [| [| [| k]]]; [| | | lia];
    (split; [reflexivity | simpl; repeat split; lra]).
Defined.

End SeriesFacts.

(* ================================================================== *)
(** * Further properties of the regression engine and its table *)
(* ================================================================== *)

Module EngineMoreFacts.

Import PyFacts Spec Examples EngineFacts NestedFacts.

Open Scope R_scope.

(** X7: when the ticker is not a column of the return series, the three
    functions that read the target column raise [KeyError], whatever the
    solver would do: no model is fitted. *)
Theorem missing_ticker_raises (I : Type) (returns : Frame I R) (stock_ticker : string) :
  accessor (A := R) (ticker_of returns) stock_ticker = None ->
  (forall solve, run_regressions solve returns stock_ticker = Raise KeyError) /\
  Distribution.plot_normal_distribution returns stock_ticker = Raise KeyError /\
  Distribution.plot_cdf returns stock_ticker = Raise KeyError.
Proof.
  intros H.
  assert (Hg : getitem returns stock_ticker = Raise KeyError)
    by (unfold getitem; rewrite H; reflexivity).
  split; [| split].
  - intros solve. unfold run_regressions. rewrite Hg. reflexivity.
  - unfold Distribution.plot_normal_distribution. rewrite Hg. reflexivity.
  - unfold Distribution.plot_cdf. rewrite Hg. reflexivity.
Qed.

Lemma missing_ticker_raises_witness :
  run_regressions solver_example returns_example "AAPL" = Raise KeyError.
Proof.
  apply (proj1 (@missing_ticker_raises Z returns_example "AAPL" eq_refl)).
Defined.

Lemma dot_nil_r (x : list R) : dot x [] = 0.
Proof. destruct x; reflexivity. Qed.

Lemma dot_unit (x : list R) (j : nat) (v : R) :
  dot x (repeat 0 j ++ [v]) = nth j x 0 * v.
Proof.
  revert x. induction j as [| j IH]; intros [| a xs]; simpl; try ring.
  - rewrite dot_nil_r. ring.
  - rewrite IH. ring.
Qed.

(** Every design that [add_constant] returns reaches the constant
    predictions, through the column of ones or the constant column. *)
Lemma design_reaches_constant (d : Design) (c : R) :
  exists b, predict (mat (add_constant d)) b = map (fun _ => c) (mat d).
Proof.
  unfold add_constant. destruct (has_constant d) eqn:E.
  - unfold has_constant in E. apply existsb_exists in E. destruct E as (j & _ & Hj).
    unfold column in Hj. apply is_const_inv in Hj. destruct Hj as (k & Hk & Hall).
    exists (repeat 0 j ++ [c / k]). unfold predict. apply map_ext_in.
    intros x Hx. rewrite dot_unit, (Hall x Hx). field. exact Hk.
  - exists [c]. unfold predict. cbn [mat]. rewrite map_map. apply map_ext.
    intros x. simpl. rewrite dot_nil_r. ring.
Qed.

Lemma ssr_of_constant (X : list (list R)) (y b : list R) (c : R) :
  length X = length y -> predict X b = map (fun _ => c) X ->
  ssr_of X y b = Rsum (map (fun v => (v - c) * (v - c)) y).
Proof.
  intros Hlen Hp. unfold ssr_of. rewrite Hp. clear Hp b.
  revert X Hlen. induction y as [| v tl IH]; intros [| x xs] Hlen; simpl in *;
    try discriminate; [reflexivity |].
  rewrite (IH xs) by lia. reflexivity.
Qed.

Lemma add_constant_rows (d : Design) : length (mat (add_constant d)) = length (mat d).
Proof. unfold add_constant. destruct (has_constant d); simpl; [| rewrite length_map]; reflexivity. Qed.

(** A fit of a model of [run_regressions] that misses the least sum of
    squared residuals by at most [eps] leaves no more than the total sum of
    squares plus [eps]: the constant alone reaches the total sum. *)
Lemma fitted_ssr_le_tss
  (solve : Design -> list R -> outcome Estimates) (I : Type)
  (returns : Frame I R) (stock_ticker : string)
  (regs : list RegressionResults) (r : RegressionResults) (eps : R) :
  run_regressions solve returns stock_ticker = Ok regs ->
  In r regs ->
  least_squares_within eps r ->
  ssr r <= centered_tss r + eps.
Proof.
  intros Hrun Hr Hls.
  destruct (run_regressions_inv _ _ _ Hrun)
    as (q1 & q2 & q3 & q4 & q5 & -> & H1 & H2 & H3 & H4 & H5).
  assert (Hfit : exists factors, fit_model solve returns stock_ticker factors = Ok r).
  { simpl in Hr. destruct Hr as [<- | [<- | [<- | [<- | [<- | []]]]]]; eauto. }
  destruct Hfit as (factors & Hfit).
  destruct (fit_model_inv _ _ _ _ Hfit) as (gy & gs & _ & _ & Hy & HX).
  set (d := mkDesign factors
              (map (fun t => map (fun g : Row R -> R => g (snd t)) gs) (body returns)))
    in HX.
  destruct (design_reaches_constant d (mean (endog r))) as [b Hb].
  unfold ssr, centered_tss, centered_tss_of.
  eapply Rle_trans; [apply (Hls b) |]. rewrite HX.
  apply Rplus_le_compat_r.
  right. apply ssr_of_constant.
  - rewrite add_constant_rows, Hy. unfold d. cbn [mat]. rewrite !length_map. reflexivity.
  - rewrite Hb. unfold add_constant. destruct (has_constant d); cbn [mat].
    + reflexivity.
    + rewrite map_map. reflexivity.
Qed.

(** X8: every model that [run_regressions] fits contains a constant.  So a
    result whose coefficients miss the least sum of squared residuals by
    at most [eps] has [ssr <= centered_tss + eps]; and when the target
    takes two different values its R-squared is a number between
    [- eps / centered_tss] and 1 (between 0 and 1 for an exact
    least-squares fit). *)
Theorem rsquared_unit_interval
  (solve : Design -> list R -> outcome Estimates) (I : Type)
  (returns : Frame I R) (stock_ticker : string)
  (regs : list RegressionResults) (r : RegressionResults) (eps : R) :
  run_regressions solve returns stock_ticker = Ok regs ->
  In r regs ->
  least_squares_within eps r ->
  ssr r <= centered_tss r + eps /\
  (non_constant (endog r) ->
   exists x, rsquared r = Fin x /\ - (eps / centered_tss r) <= x <= 1).
Proof.
  intros Hrun Hr Hls.
  pose proof (fitted_ssr_le_tss _ _ _ Hrun Hr Hls) as Hssr1.
  split; [exact Hssr1 |].
  intros Hvar. pose proof (varying_tss Hvar) as Htss. fold (centered_tss r) in Htss.
  exists (1 - ssr r / centered_tss r). split; [apply rsquared_finite; exact Htss |].
  assert (Hssr0 : 0 <= ssr r) by apply ssr_of_nonneg.
  assert (Hinv : 0 < / centered_tss r) by (apply Rinv_0_lt_compat; exact Htss).
  assert (H0 : 0 <= ssr r * / centered_tss r)
    by (apply Rmult_le_pos; [exact Hssr0 | lra]).
  assert (H1 : ssr r * / centered_tss r <= (centered_tss r + eps) * / centered_tss r)
    by (apply Rmult_le_compat_r; [lra | exact Hssr1]).
  assert (H2 : (centered_tss r + eps) * / centered_tss r = 1 + eps * / centered_tss r)
    by (field; lra).
  unfold Rdiv. lra.
Qed.

Lemma rsquared_unit_interval_witness :
  ssr full_inexact <= centered_tss full_inexact + 0.000005 /\
  exists x, rsquared full_inexact = Fin x /\
            - (0.000005 / centered_tss full_inexact) <= x <= 1.
Proof.
  destruct (@rsquared_unit_interval solver_inexact Z returns_example "MAS" regs_inexact
              full_inexact 0.000005 run_inexact
              (or_intror (or_intror (or_intror (or_intror (or_introl eq_refl)))))
              inexact_within)
    as [Hs Hx].
  split; [exact Hs | exact (Hx example_varies)].
Defined.





Lemma ssr_of_exact (X : list (list R)) (y b : list R) :
  predict X b = y -> ssr_of X y b = 0.
Proof.
  intros H. unfold ssr_of. rewrite H. clear H.
  induction y as [| v tl IH]; simpl; [reflexivity |].
  rewrite IH. ring.
Qed.

Lemma accessor_own {A : Type} (ticker : string) :
  accessor (A := A) ticker ticker = Some (@stock A).
Proof. unfold accessor. rewrite String.eqb_refl. reflexivity. Qed.

Lemma accessor_factors {A : Type} (ticker : string) :
  ~ In ticker ["SP500"; "VW"; "TYX"] ->
  accessor (A := A) ticker "SP500" = Some (@SP500 A) /\
  accessor (A := A) ticker "VW" = Some (@VW A) /\
  accessor (A := A) ticker "TYX" = Some (@TYX A).
Proof.
  intros H. unfold accessor. simpl in H.
  assert (H1 : String.eqb "SP500" ticker = false)
    by (apply String.eqb_neq; intros E; apply H; auto).
  assert (H2 : String.eqb "VW" ticker = false)
    by (apply String.eqb_neq; intros E; apply H; auto).
  assert (H3 : String.eqb "TYX" ticker = false)
    by (apply String.eqb_neq; intros E; apply H; auto).
  rewrite H1, H2, H3. simpl. tauto.
Qed.

(** X11: when the target is an exact affine combination of the three
    factors in every row, the full model can leave no residual: a fit that
    misses the least sum of squared residuals by at most [eps] has
    [ssr <= eps], and when the target takes two different values its
    R-squared is a number between [1 - eps / centered_tss] and 1. *)
Theorem exact_combination_fits
  (solve : Design -> list R -> outcome Estimates) (I : Type)
  (returns : Frame I R) (stock_ticker : string)
  (regs : list RegressionResults) (r5 : RegressionResults) (a0 a1 a2 a3 eps : R) :
  ticker_of returns = stock_ticker ->
  ~ In stock_ticker ["SP500"; "VW"; "TYX"] ->
  (forall t, In t (body returns) ->
     stock (snd t) = a0 + a1 * SP500 (snd t) + a2 * VW (snd t) + a3 * TYX (snd t)) ->
  run_regressions solve returns stock_ticker = Ok regs ->
  nth_error regs 4 = Some r5 ->
  least_squares_within eps r5 ->
  ssr r5 <= eps /\
  (non_constant (endog r5) ->
   exists x, rsquared r5 = Fin x /\ 1 - eps / centered_tss r5 <= x <= 1).
Proof.
  intros Htk Hnf Hy Hrun Hnth Hls.
  destruct (run_regressions_inv _ _ _ Hrun)
    as (q1 & q2 & q3 & q4 & q5 & -> & _ & _ & _ & _ & H5).
  simpl in Hnth. injection Hnth as ->.
  destruct (fit_model_inv _ _ _ _ H5) as (gy & gs & Hgy & Hacc & Hendog & HX).
  rewrite Htk, accessor_own in Hgy. injection Hgy as <-.
  rewrite Htk in Hacc. destruct (accessor_factors (A := R) Hnf) as (Hg1 & Hg2 & Hg3).
  simpl in Hacc. rewrite Hg1, Hg2, Hg3 in Hacc. injection Hacc as <-.
  assert (Hssr : ssr r5 <= eps).
  { destruct (@full_model_reaches I (body returns) (@SP500 R) (@VW R) (@TYX R) a0 a1 a2 a3)
      as [b Hb].
    eapply Rle_trans; [apply (Hls b) |].
    rewrite (@ssr_of_exact (mat (exog r5)) (endog r5) b); [lra |].
    rewrite HX, Hb, Hendog.
    apply map_ext_in. intros t Ht. unfold affine. symmetry. apply Hy. exact Ht. }
  split; [exact Hssr |].
  intros Hvar. pose proof (varying_tss Hvar) as Htss. fold (centered_tss r5) in Htss.
  exists (1 - ssr r5 / centered_tss r5). split; [apply rsquared_finite; exact Htss |].
  assert (Hssr0 : 0 <= ssr r5) by apply ssr_of_nonneg.
  assert (Hinv : 0 < / centered_tss r5) by (apply Rinv_0_lt_compat; exact Htss).
  assert (H0 : 0 <= ssr r5 * / centered_tss r5)
    by (apply Rmult_le_pos; [exact Hssr0 | lra]).
  assert (H1 : ssr r5 * / centered_tss r5 <= eps * / centered_tss r5)
    by (apply Rmult_le_compat_r; [lra | exact Hssr]).
  unfold Rdiv. lra.
Qed.

Lemma exact_combination_fits_witness :
  ssr full_inexact <= 0.000005 /\
  exists x, rsquared full_inexact = Fin x /\
            1 - 0.000005 / centered_tss full_inexact <= x <= 1.
Proof.
  destruct (@exact_combination_fits solver_inexact Z returns_example "MAS" regs_inexact
              full_inexact 0 1 0 0 0.000005 eq_refl)
    as [Hs Hx].
  - simpl. intros [H | [H | [H | []]]]; discriminate H.
  - intros t Ht. simpl in Ht.
    repeat (destruct Ht as [<- | Ht]; [simpl; lra |]). destruct Ht.
  - exact run_inexact.
  - reflexivity.
  - exact inexact_within.
  - split; [exact Hs | exact (Hx example_varies)].
Defined.

End EngineMoreFacts.

Module TableFacts.

Import PyFacts Format FormatFacts Spec Examples EngineFacts NestedFacts FormatterFacts.

Open Scope R_scope.

Lemma append_nonempty (s t : string) : t <> ""%string -> (s ++ t)%string <> ""%string.
Proof. intros H. destruct s; simpl; [exact H | discriminate]. Qed.

(** A cell with a coefficient is never the empty text. *)
Lemma cell_nonempty (reg : RegressionResults) (var : string) (v : float) :
  series_lookup var (params reg) = Some v ->
  Formatter.create_cell_value reg var <> ""%string.
Proof.
  intros H. unfold Formatter.create_cell_value. rewrite H.
  apply append_nonempty, append_nonempty. discriminate.
Qed.

Lemma lookup_combine (k : string) (ns : list string) (vs : list float) :
  In k ns -> length ns = length vs ->
  exists v, series_lookup k (combine ns vs) = Some v.
Proof.
  revert vs. induction ns as [| n tl IH]; intros [| v vs] Hin Hlen; simpl in *;
    try tauto; try discriminate.
  destruct (String.eqb k n) eqn:E; [eauto |].
  destruct Hin as [-> | Hin]; [rewrite String.eqb_refl in E; discriminate |].
  apply IH; [exact Hin | lia].
Qed.

Lemma add_constant_names (d : Design) :
  names (add_constant d) = names d \/ names (add_constant d) = "const"%string :: names d.
Proof. unfold add_constant. destruct (has_constant d); simpl; tauto. Qed.

(** X12: in the table of the results of [run_regressions], when the solver
    returns one coefficient per column, the cell of a factor is empty
    exactly when the factor is not in the model of that row: row (1) has
    text only under S&P 500, row (4) under S&P 500 and Val.-Wgtd, and so
    on. *)
Theorem factor_cells_match_model
  (solve : Design -> list R -> outcome Estimates) (I : Type)
  (returns : Frame I R) (stock_ticker : string)
  (regs : list RegressionResults) (i : nat) (r : RegressionResults)
  (factors : list string) (var : string) :
  run_regressions solve returns stock_ticker = Ok regs ->
  nth_error regs i = Some r ->
  nth_error model_factors i = Some factors ->
  length (e_params (est r)) = length (names (exog r)) ->
  In var ["SP500"; "VW"; "TYX"]%string ->
  (Formatter.create_cell_value r var = ""%string <-> ~ In var factors).
Proof.
  intros Hrun Hr Hf Hlen Hvar.
  destruct (run_regressions_inv _ _ _ Hrun)
    as (q1 & q2 & q3 & q4 & q5 & -> & H1 & H2 & H3 & H4 & H5).
  assert (Hfit : fit_model solve returns stock_ticker factors = Ok r).
  { destruct i as [| [| [| [| [| i]]]]]; simpl in Hr, Hf;
      try (destruct i; discriminate);
      injection Hr as <-; injection Hf as <-; assumption. }
  destruct (fit_model_inv _ _ _ _ Hfit) as (gy & gs & _ & _ & _ & HX).
  assert (Hnames : names (exog r) = factors \/ names (exog r) = "const"%string :: factors).
  { rewrite HX. apply (add_constant_names (mkDesign factors _)). }
  assert (Hconst : var <> "const"%string).
  { simpl in Hvar. destruct Hvar as [<- | [<- | [<- | []]]]; discriminate. }
  split.
  - intros Hcell Hin.
    assert (Hn : In var (names (exog r))).
    { destruct Hnames as [-> | ->]; [exact Hin | right; exact Hin]. }
    destruct (@lookup_combine var (names (exog r)) (map Fin (e_params (est r))) Hn)
      as [v Hv]; [rewrite length_map; symmetry; exact Hlen |].
    exact (cell_nonempty r var Hv Hcell).
  - intros Hnin. unfold Formatter.create_cell_value.
    rewrite params_outside_design; [reflexivity |].
    destruct Hnames as [-> | ->]; [exact Hnin |].
    intros [E | Hin]; [apply Hconst; symmetry; exact E | exact (Hnin Hin)].
Qed.

Lemma factor_cells_match_model_witness :
  exists r, nth_error regs_example 0 = Some r /\
            Formatter.create_cell_value r "VW" = ""%string.
Proof.
  eexists. split; [reflexivity |].
  apply (@factor_cells_match_model solver_example Z returns_example "MAS" regs_example
           0%nat _ ["SP500"%string] "VW" run_example eq_refl eq_refl eq_refl).
  - simpl. tauto.
  - simpl. intros [H | []]. discriminate H.
Defined.

(** X13: the significance marker never gains a star when the p-value
    grows: of two cells with a coefficient, the marker of the one with the
    larger p-value is a prefix of the marker of the other, and each marker
    is one of "***", "**", "*" and the empty text.  A cell whose variable
    has a coefficient but no p-value and no standard error gets the
    defaults: no star, and "0.0000" in the parentheses. *)
Theorem stars_monotone
  (reg1 reg2 : RegressionResults) (var1 var2 : string) (v1 v2 : float) (p q : R) :
  series_lookup var1 (params reg1) = Some v1 ->
  series_lookup var2 (params reg2) = Some v2 ->
  series_get (pvalues reg1) var1 (Fin 1) = Fin p ->
  series_get (pvalues reg2) var2 (Fin 1) = Fin q ->
  p <= q ->
  (exists s1 s2,
      In s1 ["***"; "**"; "*"; ""]%string /\ In s2 ["***"; "**"; "*"; ""]%string /\
      Formatter.create_cell_value reg1 var1 =
        (fmt4 v1 ++ s1 ++ " (" ++ fmt4 (series_get (bse reg1) var1 (Fin 0)) ++ ")")%string /\
      Formatter.create_cell_value reg2 var2 =
        (fmt4 v2 ++ s2 ++ " (" ++ fmt4 (series_get (bse reg2) var2 (Fin 0)) ++ ")")%string /\
      prefix s2 s1 = true) /\
  (forall reg var v,
      series_lookup var (params reg) = Some v ->
      series_lookup var (pvalues reg) = None ->
      series_lookup var (bse reg) = None ->
      Formatter.create_cell_value reg var = (fmt4 v ++ " (0.0000)")%string).
Proof.
  intros Hv1 Hv2 Hp Hq Hpq. split.
  - unfold Formatter.create_cell_value. rewrite Hv1, Hv2, Hp, Hq.
    unfold fltb, Rltb.
    destruct (Rlt_dec q 0.01), (Rlt_dec q 0.05), (Rlt_dec q 0.1),
      (Rlt_dec p 0.01), (Rlt_dec p 0.05), (Rlt_dec p 0.1);
      try (exfalso; lra);
      do 2 eexists; (split; [| split; [| split; [reflexivity | split; [reflexivity |]]]]);
      simpl; auto 6.
  - intros reg var v Hv Hpv Hse. unfold Formatter.create_cell_value, series_get.
    rewrite Hv, Hpv, Hse. unfold fltb.
    rewrite !Rltb_false by lra.
    rewrite (@fmt4_nonneg 0 0) by (simpl; lra). reflexivity.
Qed.

Lemma stars_monotone_witness :
  exists s1 s2,
    Formatter.create_cell_value reg_example "SP500" =
      (fmt4 (Fin 1.23456) ++ s1 ++ " (" ++ fmt4 (Fin 0.04321) ++ ")")%string /\
    prefix s2 s1 = true.
Proof.
  destruct (proj1 (@stars_monotone reg_example reg_example "SP500" "SP500"
                     (Fin 1.23456) (Fin 1.23456) 0.002 0.002
                     eq_refl eq_refl eq_refl eq_refl ltac:(lra)))
    as (s1 & s2 & _ & _ & H1 & _ & Hpre).
  exists s1, s2. split; [exact H1 | exact Hpre].
Defined.

Lemma pdf_rows_shape (regs : list RegressionResults) (i : nat) :
  length (Report.pdf_rows i regs) = length regs /\
  Forall (fun row => length row = 6%nat) (Report.pdf_rows i regs).
Proof.
  revert i. induction regs as [| reg tl IH]; intros i; simpl.
  - split; [reflexivity | constructor].
  - destruct (IH (S i)) as [H1 H2]. split; [rewrite H1; reflexivity |].
    constructor; [reflexivity | exact H2].
Qed.

(** X14: the table of the PDF is rectangular for any list of regressions:
    one header and one row per regression, every row of six cells, as many
    as the six column widths the table is built with; the data frame on
    screen has the same number of rows, each of six entries. *)
Theorem tables_rectangular (regs : list RegressionResults) :
  length (Report.table_data regs) = S (length regs) /\
  Forall (fun row => length row = 6%nat) (Report.table_data regs) /\
  length (Formatter.create_regression_table_dataframe regs) = length regs /\
  Forall (fun row => length row = 6%nat)
    (Formatter.create_regression_table_dataframe regs).
Proof.
  unfold Report.table_data, Formatter.create_regression_table_dataframe.
  destruct (pdf_rows_shape regs 1) as [H1 H2].
  split; [simpl; rewrite H1; reflexivity |].
  split; [constructor; [reflexivity | exact H2] |].
  rewrite <- table_rows_values in H1, H2. rewrite length_map in H1.
  split; [exact H1 |].
  rewrite Forall_map in H2. eapply Forall_impl; [| exact H2].
  intros row Hrow. simpl in Hrow. rewrite length_map in Hrow. exact Hrow.
Qed.

End TableFacts.

(* ================================================================== *)
(** * Further properties of the distribution analysis and the report *)
(* ================================================================== *)

Module AnalysisFacts.

Import PyFacts Format FormatFacts Spec Examples Distribution DistributionFacts FitFacts
  ReportFacts SeriesOps.

Open Scope R_scope.

Lemma Rsum_sq_expand (m : R) (l : list R) :
  Rsum (map (fun x => (x - m) * (x - m)) l) =
  Rsum (map (fun x => x * x) l) - 2 * m * Rsum l + INR (length l) * m * m.
Proof.
  induction l as [| x tl IH]; [simpl; ring |].
  cbn [map Rsum length]. rewrite IH, S_INR. ring.
Qed.

(** The sum of squared deviations is least about the mean. *)
Lemma sum_sq_dev_least (data : list R) (m : R) :
  data <> [] ->
  Rsum (map (fun x => (x - m) * (x - m)) data) =
  sum_sq_dev data + INR (length data) * ((avg data - m) * (avg data - m)).
Proof.
  intros Hne. unfold sum_sq_dev. rewrite !Rsum_sq_expand.
  pose proof (INR_length_pos Hne) as Hn.
  assert (Hs : Rsum data = INR (length data) * avg data)
    by (unfold avg; field; lra).
  rewrite Hs. ring.
Qed.

Lemma loglik_closed (data : list R) (m s : R) :
  gaussian_loglik data m s =
  INR (length data) * (- ln s - ln (sqrt (2 * PI))) -
  Rsum (map (fun x => (x - m) * (x - m)) data) / (2 * s * s).
Proof.
  unfold gaussian_loglik. induction data as [| x tl IH]; [simpl; unfold Rdiv; ring |].
  cbn [map Rsum length]. rewrite IH, S_INR. unfold Rdiv. ring.
Qed.

Lemma ln_le_minus_1 (u : R) : 0 < u -> ln u <= u - 1.
Proof.
  intros Hu. pose proof (exp_ineq1_le (u - 1)) as H.
  replace (1 + (u - 1)) with u in H by ring.
  destruct H as [H | H].
  - left. rewrite <- (ln_exp (u - 1)). apply ln_increasing; assumption.
  - right. rewrite H at 1. apply ln_exp.
Qed.

(** X15: the pair that the normal fit returns maximises the Gaussian
    likelihood of the sample: when the fitted sigma is positive, no other
    mean and positive standard deviation give the sample a larger
    log-likelihood. *)
Theorem norm_fit_maximises_likelihood (data : list R) (mu sigma : R) :
  norm_fit data = (Fin mu, Fin sigma) ->
  0 < sigma ->
  forall m s, 0 < s -> gaussian_loglik data m s <= gaussian_loglik data mu sigma.
Proof.
  intros Hfit Hsigma m s Hs.
  assert (Hne : data <> []).
  { intros ->. unfold norm_fit, np_mean, fdiv in Hfit. simpl in Hfit.
    rewrite Reqb_true in Hfit by reflexivity. discriminate. }
  rewrite (norm_fit_nonempty Hne) in Hfit. injection Hfit as Hmu Hsd.
  pose proof (INR_length_pos Hne) as Hn.
  pose proof (sum_sq_dev_nonneg data) as Hss.
  set (n := INR (length data)) in *.
  assert (Hvar : sigma * sigma = sum_sq_dev data / n).
  { rewrite <- Hsd. unfold population_sd. fold n. apply sqrt_sqrt.
    apply Rmult_le_pos; [exact Hss |]. left. apply Rinv_0_lt_compat. exact Hn. }
  rewrite !loglik_closed. fold n.
  rewrite (sum_sq_dev_least m Hne), (sum_sq_dev_least mu Hne). fold n.
  rewrite <- Hmu. replace ((avg data - avg data) * (avg data - avg data)) with 0 by ring.
  assert (Hssn : sum_sq_dev data = n * (sigma * sigma)) by (rewrite Hvar; field; lra).
  rewrite Hssn.
  set (u := (sigma * sigma) / (s * s)).
  assert (Hu : 0 < u).
  { unfold u. apply Rdiv_lt_0_compat; apply Rmult_lt_0_compat; assumption. }
  assert (Hln : ln u = 2 * ln sigma - 2 * ln s).
  { unfold u. rewrite SeriesFacts.ln_ratio by (apply Rmult_lt_0_compat; assumption).
    rewrite !ln_mult by assumption. ring. }
  pose proof (ln_le_minus_1 Hu) as Hle.
  assert (Hsq : 0 <= (avg data - m) * (avg data - m)).
  { pose proof (Rle_0_sqr (avg data - m)) as H. unfold Rsqr in H. exact H. }
  assert (H1 : (n * (sigma * sigma) + n * ((avg data - m) * (avg data - m))) / (2 * s * s)
               = n * u / 2 + n * ((avg data - m) * (avg data - m)) / (2 * s * s)).
  { unfold u. field. lra. }
  assert (H2 : (n * (sigma * sigma) + n * 0) / (2 * sigma * sigma) = n / 2).
  { field. lra. }
  rewrite H1, H2.
  assert (H3 : 0 <= n * ((avg data - m) * (avg data - m)) / (2 * s * s)).
  { apply Rmult_le_pos.
    - apply Rmult_le_pos; [lra | exact Hsq].
    - left. apply Rinv_0_lt_compat. nra. }
  nra.
Qed.

Lemma norm_fit_maximises_likelihood_witness :
  gaussian_loglik [0; 2] 0 3 <= gaussian_loglik [0; 2] 1 1.
Proof.
  apply (@norm_fit_maximises_likelihood [0; 2] 1 1); try lra.
  rewrite norm_fit_nonempty by discriminate.
  unfold population_sd, sum_sq_dev, avg. simpl.
  f_equal; f_equal.
  - lra.
  - match goal with |- sqrt ?v = 1 => replace v with 1 by lra end. apply sqrt_1.
Defined.

(** X16: the variance line of the report squares the fitted sigma: for a
    series with at least one observation the three lines under the normal
    plot print the mean, the population standard deviation and the
    population variance (the sum of squared deviations over [n]). *)
Theorem distribution_parameters_population (stock_returns : list R) :
  stock_returns <> [] ->
  Report.distribution_parameters stock_returns =
  [ ("Mean (μ): " ++ fmt4 (Fin (avg stock_returns)))%string;
    ("Standard Deviation (σ): " ++ fmt4 (Fin (population_sd stock_returns)))%string;
    ("Variance (σ²): " ++
       fmt4 (Fin (sum_sq_dev stock_returns / INR (length stock_returns))))%string ].
Proof.
  intros Hne. unfold Report.distribution_parameters.
  rewrite (norm_fit_nonempty Hne). cbn [fsquare].
  unfold population_sd at 2 3. rewrite sqrt_sqrt; [reflexivity |].
  apply Rmult_le_pos; [apply sum_sq_dev_nonneg |].
  left. apply Rinv_0_lt_compat, INR_length_pos. exact Hne.
Qed.

Lemma distribution_parameters_population_witness :
  Report.distribution_parameters small_returns =
  [ ("Mean (μ): " ++ fmt4 (Fin (avg small_returns)))%string;
    ("Standard Deviation (σ): " ++ fmt4 (Fin (population_sd small_returns)))%string;
    ("Variance (σ²): " ++
       fmt4 (Fin (sum_sq_dev small_returns / INR (length small_returns))))%string ].
Proof. apply distribution_parameters_population. discriminate. Defined.

(** X17: the two standard deviations of the report are in a fixed ratio:
    for a series of [n >= 2] observations the Std Dev of the CDF section
    is the sigma of the normal section times the root of [n / (n - 1)]. *)
Theorem std_dev_ratio (stock_returns : list R) :
  (2 <= length stock_returns)%nat ->
  exists sigma,
    snd (norm_fit stock_returns) = Fin sigma /\
    pandas_std stock_returns =
      Fin (sigma * sqrt (INR (length stock_returns) / (INR (length stock_returns) - 1))).
Proof.
  intros Hn. exists (population_sd stock_returns).
  rewrite norm_fit_nonempty by (destruct stock_returns; [simpl in Hn; lia | discriminate]).
  split; [reflexivity |].
  rewrite (pandas_std_sample _ Hn). f_equal.
  unfold sample_sd, population_sd.
  assert (H2 : INR 2 <= INR (length stock_returns)) by (apply le_INR; exact Hn).
  simpl in H2.
  pose proof (sum_sq_dev_nonneg stock_returns) as Hss.
  rewrite <- sqrt_mult.
  - f_equal. field. lra.
  - apply Rmult_le_pos; [exact Hss |]. left. apply Rinv_0_lt_compat. lra.
  - apply Rmult_le_pos; [lra |]. left. apply Rinv_0_lt_compat. lra.
Qed.

Lemma std_dev_ratio_witness :
  exists sigma,
    snd (norm_fit small_returns) = Fin sigma /\
    pandas_std small_returns = Fin (sigma * sqrt (INR 2 / (INR 2 - 1))).
Proof. apply (@std_dev_ratio small_returns). simpl. lia. Defined.

(** X18: the edge cases of the two sections.  For a single observation the
    normal section prints sigma as "0.0000" while the CDF section prints
    the Std Dev as "nan"; for a series without observations both print
    "nan". *)
Theorem degenerate_series_printed (x : R) :
  Report.printed_sigma [x] = "0.0000"%string /\
  Report.printed_std_dev [x] = "nan"%string /\
  Report.printed_sigma [] = "nan"%string /\
  Report.printed_std_dev [] = "nan"%string.
Proof.
  split; [| split; [| split]].
  - unfold Report.printed_sigma.
    rewrite norm_fit_nonempty by discriminate. cbn [snd].
    unfold population_sd. change [x] with (repeat x 1).
    rewrite sum_sq_dev_repeat by lia. unfold Rdiv. rewrite Rmult_0_l, sqrt_0.
    rewrite (@fmt4_nonneg 0 0) by lra. reflexivity.
  - reflexivity.
  - unfold Report.printed_sigma, norm_fit, np_mean, fdiv. simpl.
    rewrite Reqb_true by reflexivity. reflexivity.
  - reflexivity.
Qed.

Lemma degenerate_series_printed_witness :
  Report.printed_sigma [0.02] = "0.0000"%string /\
  Report.printed_std_dev [0.02] = "nan"%string.
Proof.
  split; [apply (proj1 (degenerate_series_printed 0.02)) |
          apply (proj1 (proj2 (degenerate_series_printed 0.02)))].
Defined.

(** X19: the two scatter series of [plot_cdf] have as many points as the
    return series has rows, and share one grid of probabilities: point
    [i] of the stock and point [i] of the S&P 500 have the same cumulative
    probability. *)
Theorem plot_cdf_common_grid (I : Type) (returns : Frame I R) (stock_ticker : string)
  (cdf_stock cdf_sp : list (R * R)) :
  plot_cdf returns stock_ticker = Ok (cdf_stock, cdf_sp) ->
  length cdf_stock = length (body returns) /\
  length cdf_sp = length (body returns) /\
  map snd cdf_stock = map snd cdf_sp.
Proof.
  unfold plot_cdf, getitem. intros H.
  destruct (accessor (ticker_of returns) stock_ticker) as [g |]; [| discriminate].
  destruct (accessor (ticker_of returns) "SP500") as [g' |]; [| discriminate].
  cbn [bind] in H. injection H as <- <-.
  set (c := map (fun r : I * Row R => g (snd r)) (body returns)).
  set (c' := map (fun r : I * Row R => g' (snd r)) (body returns)).
  assert (Hc : length (np_sort c) = length (body returns))
    by (rewrite np_sort_length; apply length_map).
  assert (Hc' : length (np_sort c') = length (body returns))
    by (rewrite np_sort_length; apply length_map).
  rewrite !length_combine, !snd_combine by (rewrite linspace_length; reflexivity).
  rewrite !linspace_length, !Nat.min_id, Hc, Hc'. tauto.
Qed.

Lemma plot_cdf_common_grid_witness :
  exists cdf_stock cdf_sp,
    plot_cdf returns_example "MAS" = Ok (cdf_stock, cdf_sp) /\
    map snd cdf_stock = map snd cdf_sp.
Proof.
  eexists. eexists. split; [reflexivity |].
  apply (@plot_cdf_common_grid Z returns_example "MAS" _ _ eq_refl).
Defined.









End AnalysisFacts.

(* ================================================================== *)
(** * The sidebar and the download names *)
(* ================================================================== *)

Module ScriptFacts.

Import Script MoreExamples.

Lemma chars_append (s t : string) : chars (s ++ t) = chars s ++ chars t.
Proof. unfold chars. induction s as [| c s IH]; simpl; [reflexivity | rewrite IH; reflexivity]. Qed.

(** After a replacement the old character is gone, unless the new text
    brings it back. *)
Lemma replace_removes (old : ascii) (new s : string) :
  ~ In old (chars new) -> ~ In old (chars (replace old new s)).
Proof.
  intros Hnew. induction s as [| c s IH]; simpl; [tauto |].
  destruct (Ascii.eqb c old) eqn:E.
  - rewrite chars_append. intros H. apply in_app_or in H. tauto.
  - apply Ascii.eqb_neq in E. simpl. intros [H | H]; [exact (E H) | exact (IH H)].
Qed.

(** A replacement brings in no character that was neither in the string
    nor in the new text. *)
Lemma replace_chars (old : ascii) (new s : string) (c : ascii) :
  In c (chars (replace old new s)) -> In c (chars s) \/ In c (chars new).
Proof.
  induction s as [| a s IH]; simpl; [tauto |].
  destruct (Ascii.eqb a old).
  - rewrite chars_append. intros H. apply in_app_or in H. tauto.
  - simpl. intros [H | H]; [tauto | destruct (IH H); tauto].
Qed.

Lemma replace_absent (old : ascii) (new s : string) :
  ~ In old (chars s) -> replace old new s = s.
Proof.
  induction s as [| c s IH]; simpl; [reflexivity |]. intros H.
  destruct (Ascii.eqb c old) eqn:E.
  - apply Ascii.eqb_eq in E. tauto.
  - rewrite IH by tauto. reflexivity.
Qed.

(** X21: the stock name that enters the file names has no space, no
    parenthesis and no slash, whatever the name was; a name without these
    four characters is kept as it is, so cleaning a clean name changes
    nothing. *)
Theorem safe_stock_name_clean (name : string) :
  (forall c, In c [" "; "("; ")"; "/"]%char -> ~ In c (chars (safe_stock_name name))) /\
  ((forall c, In c [" "; "("; ")"; "/"]%char -> ~ In c (chars name)) ->
   safe_stock_name name = name) /\
  safe_stock_name (safe_stock_name name) = safe_stock_name name.
Proof.
  assert (Hclean : forall n c, In c [" "; "("; ")"; "/"]%char ->
                     ~ In c (chars (safe_stock_name n))).
  { intros n c Hc H. unfold safe_stock_name in H. simpl in Hc.
    destruct Hc as [<- | [<- | [<- | [<- | []]]]].
    - apply replace_chars in H. destruct H as [H | H];
        [| simpl in H; destruct H as [H | []]; discriminate H].
      apply replace_chars in H. destruct H as [H | []].
      apply replace_chars in H. destruct H as [H | []].
      revert H. apply replace_removes. simpl. intros [H | []]. discriminate H.
    - apply replace_chars in H. destruct H as [H | H];
        [| simpl in H; destruct H as [H | []]; discriminate H].
      apply replace_chars in H. destruct H as [H | []].
      revert H. apply replace_removes. simpl. tauto.
    - apply replace_chars in H. destruct H as [H | H];
        [| simpl in H; destruct H as [H | []]; discriminate H].
      revert H. apply replace_removes. simpl. tauto.
    - revert H. apply replace_removes. simpl. intros [H | []]. discriminate H. }
  assert (Hid : forall n, (forall c, In c [" "; "("; ")"; "/"]%char -> ~ In c (chars n)) ->
                  safe_stock_name n = n).
  { intros n Hn. unfold safe_stock_name.
    rewrite (replace_absent " " "_" n) by (apply Hn; simpl; tauto).
    rewrite (replace_absent "(" "" n) by (apply Hn; simpl; tauto).
    rewrite (replace_absent ")" "" n) by (apply Hn; simpl; tauto).
    apply replace_absent. apply Hn. simpl. tauto. }
  split; [apply Hclean |]. split; [apply Hid |].
  apply Hid. apply Hclean.
Qed.

Lemma safe_stock_name_clean_witness :
  safe_stock_name "General_Dynamics" = "General_Dynamics".
Proof.
  apply (proj1 (proj2 (safe_stock_name_clean "General_Dynamics"))).
  intros c Hc H. simpl in Hc, H.
  destruct Hc as [<- | [<- | [<- | [<- | []]]]];
    repeat (destruct H as [H | H]; [discriminate H |]); exact H.
Defined.

(** ** The stock selector *)

Lemma dict_set_keys (k v : string) (d : Dict) (k' : string) :
  In k' (map fst (dict_set k v d)) <-> k' = k \/ In k' (map fst d).
Proof.
  induction d as [| [a b] tl IH]; simpl.
  - intuition.
  - destruct (String.eqb k a) eqn:E; simpl.
    + apply String.eqb_eq in E. subst a. intuition.
    + rewrite IH. intuition.
Qed.

Lemma dict_set_NoDup (k v : string) (d : Dict) :
  NoDup (map fst d) -> NoDup (map fst (dict_set k v d)).
Proof.
  induction d as [| [a b] tl IH]; simpl; intros H.
  - constructor; [simpl; tauto | constructor].
  - inversion H as [| ? ? Hnin Htl]; subst.
    destruct (String.eqb k a) eqn:E; simpl.
    + apply String.eqb_eq in E. subst a. constructor; assumption.
    + apply String.eqb_neq in E. constructor; [| apply IH; exact Htl].
      rewrite dict_set_keys. intros [H1 | H1]; [apply E; symmetry; exact H1 | exact (Hnin H1)].
Qed.

Lemma dict_get_set_same (k v : string) (d : Dict) : dict_get k (dict_set k v d) = Some v.
Proof.
  induction d as [| [a b] tl IH]; simpl.
  - rewrite String.eqb_refl. reflexivity.
  - destruct (String.eqb k a) eqn:E; simpl.
    + rewrite String.eqb_refl. reflexivity.
    + rewrite E. exact IH.
Qed.

Lemma dict_get_set_other (k v k' : string) (d : Dict) :
  k' <> k -> dict_get k' (dict_set k v d) = dict_get k' d.
Proof.
  intros Hne. induction d as [| [a b] tl IH]; simpl.
  - apply String.eqb_neq in Hne. rewrite Hne. reflexivity.
  - destruct (String.eqb k a) eqn:E; simpl.
    + apply String.eqb_eq in E. subst a.
      apply String.eqb_neq in Hne. rewrite Hne. reflexivity.
    + rewrite IH. reflexivity.
Qed.

(** With one item per key, a lookup finds exactly the items of the
    dictionary. *)
Lemma dict_get_In (k v : string) (d : Dict) :
  NoDup (map fst d) -> (dict_get k d = Some v <-> In (k, v) d).
Proof.
  induction d as [| [a b] tl IH]; simpl; intros H.
  - split; [discriminate | tauto].
  - inversion H as [| ? ? Hnin Htl]; subst.
    destruct (String.eqb k a) eqn:E.
    + apply String.eqb_eq in E. subst a. split.
      * intros H1. injection H1 as ->. left. reflexivity.
      * intros [H1 | H1]; [injection H1 as ->; reflexivity |].
        exfalso. apply Hnin. apply (in_map fst) in H1. exact H1.
    + apply String.eqb_neq in E. rewrite (IH Htl). split; [tauto |].
      intros [H1 | H1]; [injection H1 as -> _; exfalso; apply E; reflexivity | exact H1].
Qed.

Lemma dict_get_perm (k : string) (d d' : Dict) :
  NoDup (map fst d) -> Permutation d d' -> dict_get k d = dict_get k d'.
Proof.
  intros Hnd Hp.
  assert (Hnd' : NoDup (map fst d')).
  { eapply Permutation_NoDup; [apply Permutation_map; exact Hp | exact Hnd]. }
  destruct (dict_get k d) as [v |] eqn:E.
  - symmetry. apply (@dict_get_In k v d' Hnd'). apply (Permutation_in _ Hp).
    apply (@dict_get_In k v d Hnd). exact E.
  - destruct (dict_get k d') as [v |] eqn:E'; [| reflexivity].
    apply (@dict_get_In k v d' Hnd') in E'. apply (Permutation_in _ (Permutation_sym Hp)) in E'.
    apply (@dict_get_In k v d Hnd) in E'. congruence.
Qed.

Lemma insert_item_perm (x : string * string) (l : Dict) :
  Permutation (x :: l) (insert_item x l).
Proof.
  induction l as [| y tl IH]; simpl; [apply Permutation_refl |].
  destruct (String.leb (fst x) (fst y)); [apply Permutation_refl |].
  eapply perm_trans; [apply perm_swap |]. apply perm_skip. exact IH.
Qed.

Lemma sorted_items_perm (d : Dict) : Permutation d (sorted_items d).
Proof.
  induction d as [| x tl IH]; simpl; [constructor |].
  eapply perm_trans; [apply perm_skip, IH |]. apply insert_item_perm.
Qed.

Lemma insert_item_sorted (x : string * string) (l : Dict) :
  Sorted (fun a b => String.leb (fst a) (fst b) = true) l ->
  Sorted (fun a b => String.leb (fst a) (fst b) = true) (insert_item x l).
Proof.
  induction l as [| y tl IH]; simpl; intros Hs.
  - repeat constructor.
  - inversion Hs as [| ? ? Htl Hhd]; subst.
    destruct (String.leb (fst x) (fst y)) eqn:E.
    + constructor; [exact Hs |]. constructor. exact E.
    + assert (Hyx : String.leb (fst y) (fst x) = true).
      { destruct (String.leb_total (fst x) (fst y)) as [H | H]; [congruence | exact H]. }
      constructor; [apply IH; exact Htl |].
      destruct tl as [| z tl']; simpl.
      * constructor. exact Hyx.
      * destruct (String.leb (fst x) (fst z)); constructor; [exact Hyx |].
        inversion Hhd; assumption.
Qed.

Lemma sorted_items_sorted (d : Dict) :
  Sorted (fun a b => String.leb (fst a) (fst b) = true) (sorted_items d).
Proof.
  induction d as [| x tl IH]; simpl; [constructor |].
  apply insert_item_sorted. exact IH.
Qed.

Lemma list_index_In (x : string) (l : list string) :
  In x l -> exists i, list_index x l = Some i /\ nth_error l i = Some x.
Proof.
  induction l as [| y tl IH]; simpl; [tauto |]. intros H.
  destruct (String.eqb x y) eqn:E.
  - apply String.eqb_eq in E. subst y. exists 0%nat. split; reflexivity.
  - destruct H as [-> | H]; [rewrite String.eqb_refl in E; discriminate |].
    destruct (IH H) as (i & Hi & Hn). exists (S i). rewrite Hi. split; [reflexivity | exact Hn].
Qed.

Lemma sorted_map_fst (l : Dict) :
  Sorted (fun a b => String.leb (fst a) (fst b) = true) l ->
  Sorted (fun a b => String.leb a b = true) (map fst l).
Proof.
  induction 1 as [| x tl Htl IH Hhd]; simpl; constructor; [exact IH |].
  destruct Hhd; simpl; constructor; assumption.
Qed.

(** X22: for every ticker dictionary the selector offers "MASCO (MAS)" with
    the ticker "MAS" and starts on it; every other name of the dictionary
    keeps its ticker and no other name is offered; the names are in
    ascending order, each once. *)
Theorem stock_options_default (stock_tickers_dict : Dict) :
  NoDup (map fst stock_tickers_dict) ->
  dict_get "MASCO (MAS)" (stock_options stock_tickers_dict) = Some "MAS"%string /\
  nth_error (option_names stock_tickers_dict) (default_index stock_tickers_dict) =
    Some "MASCO (MAS)"%string /\
  (forall name, name <> "MASCO (MAS)"%string ->
     dict_get name (stock_options stock_tickers_dict) = dict_get name stock_tickers_dict) /\
  NoDup (option_names stock_tickers_dict) /\
  Sorted (fun a b => String.leb a b = true) (option_names stock_tickers_dict).
Proof.
  intros Hnd. unfold default_index, option_names, stock_options. cbv zeta.
  set (d := dict_set "MASCO (MAS)" "MAS" stock_tickers_dict).
  pose proof (dict_set_NoDup "MASCO (MAS)" "MAS" stock_tickers_dict Hnd) as Hnd'.
  fold d in Hnd'.
  pose proof (sorted_items_perm d) as Hperm.
  assert (Hkeys : NoDup (map fst (sorted_items d))).
  { eapply Permutation_NoDup; [apply Permutation_map; exact Hperm | exact Hnd']. }
  assert (Hin : In "MASCO (MAS)"%string (map fst (sorted_items d))).
  { apply (Permutation_in _ (Permutation_map fst Hperm)).
    unfold d. apply dict_set_keys. left. reflexivity. }
  split; [| split; [| split; [| split]]].
  - rewrite <- (dict_get_perm _ Hnd' Hperm). apply dict_get_set_same.
  - replace (existsb (String.eqb "MASCO (MAS)") (map fst (sorted_items d))) with true.
    + destruct (list_index_In _ _ Hin) as (i & -> & Hn). exact Hn.
    + symmetry. apply existsb_exists. exists "MASCO (MAS)"%string.
      split; [exact Hin | apply String.eqb_refl].
  - intros name Hne. rewrite <- (dict_get_perm _ Hnd' Hperm).
    apply dict_get_set_other. exact Hne.
  - exact Hkeys.
  - apply sorted_map_fst, sorted_items_sorted.
Qed.

Lemma stock_options_default_witness :
  dict_get "MASCO (MAS)" (stock_options tickers_example) = Some "MAS"%string.
Proof.
  apply (@stock_options_default tickers_example).
  unfold tickers_example. simpl.
  repeat constructor; simpl; intuition discriminate.
Defined.

End ScriptFacts.
